(** * GammaUnet: a shallow embedding of [model.py]

    The forward computation of [MultiHeadSelfAttention], [Denoiser] and
    [GammaUnet] over dense tensors.  A tensor is a shape together with its
    elements in row-major (contiguous) order; elements are real numbers, so
    the development speaks about the mathematical value of every operation
    and not about floating-point rounding.  Every operation that raises in
    PyTorch returns an error here. *)

From Stdlib Require Import List ZArith Arith Lia Bool Reals Lra.
Import ListNotations.

Set Implicit Arguments.

(** ** Exceptions and the error monad *)

Inductive error : Type :=
| AssertionError
| ZeroDivisionError
| ValueError
| IndexError
| RuntimeError.

Inductive result (A : Type) : Type :=
| OK (a : A)
| Err (e : error).

Arguments OK {A} a.
Arguments Err {A} e.

Definition bind {A B : Type} (m : result A) (k : A -> result B) : result B :=
  match m with
  | OK a => k a
  | Err e => Err e
  end.

Notation "x <- m ;; k" := (bind m (fun x => k))
  (at level 61, m at next level, right associativity).

Definition fmap {A B : Type} (f : A -> B) (m : result A) : result B :=
  x <- m ;; OK (f x).

(** ** Shapes and row-major indexing *)

Definition numel (s : list nat) : nat := fold_right Nat.mul 1 s.

Fixpoint ravel (s idx : list nat) : nat :=
  match s, idx with
  | _ :: s', i :: idx' => i * numel s' + ravel s' idx'
  | _, _ => 0
  end.

Fixpoint unravel (s : list nat) (k : nat) : list nat :=
  match s with
  | [] => []
  | _ :: s' => k / numel s' :: unravel s' (k mod numel s')
  end.

Definition in_range (s idx : list nat) : Prop := Forall2 lt idx s.

Definition insert_at (n : nat) (v : nat) (l : list nat) : list nat :=
  firstn n l ++ v :: skipn n l.

Definition remove_at (n : nat) (l : list nat) : list nat :=
  firstn n l ++ skipn (S n) l.

Definition set_at (n : nat) (v : nat) (l : list nat) : list nat :=
  firstn n l ++ match skipn n l with [] => [] | _ :: r => v :: r end.

Definition dim (s : list nat) (n : nat) : nat := nth n s 0.

(** ** Tensors *)

Record Tensor : Type := mkTensor { shape : list nat; data : list R }.

Definition wf_tensor (t : Tensor) : Prop := length (data t) = numel (shape t).

Definition get (t : Tensor) (idx : list nat) : R :=
  nth (ravel (shape t) idx) (data t) 0%R.

Definition tabulate (s : list nat) (f : list nat -> R) : Tensor :=
  mkTensor s (map (fun k => f (unravel s k)) (seq 0 (numel s))).

Definition tmap (f : R -> R) (t : Tensor) : Tensor :=
  mkTensor (shape t) (map f (data t)).

Definition rsum (n : nat) (f : nat -> R) : R :=
  fold_right (fun k acc => (f k + acc)%R) 0%R (seq 0 n).

Definition shape_of (m : result Tensor) : result (list nat) := fmap shape m.


(** ** Elementwise operations *)

Definition relu (v : R) : R := Rmax 0 v.

Definition sigmoid (v : R) : R := (1 / (1 + exp (- v)))%R.

Definition sign (v : R) : R :=
  if Rlt_dec 0 v then 1%R else if Rlt_dec v 0 then (-1)%R else 0%R.

(** [torch.pow] with a real exponent.  A positive base gives
    [exp (y * ln x)]; a zero base gives [0] (for the positive exponents used
    here); a negative base with a fractional exponent is NaN in PyTorch, a
    value [R] does not have: both call sites pass a base that is at least
    their [eps] (see [gamma_base_positive], [cube_root_base_positive]). *)
Definition pow (x y : R) : R := if Rlt_dec 0 x then Rpower x y else 0%R.

Definition clamp (t : Tensor) (lo hi : R) : Tensor :=
  tmap (fun v => Rmin (Rmax v lo) hi) t.

Definition add_scalar (t : Tensor) (c : R) : Tensor := tmap (fun v => (v + c)%R) t.
Definition mul_scalar (c : R) (t : Tensor) : Tensor := tmap (fun v => (c * v)%R) t.
Definition div_scalar (t : Tensor) (c : R) : Tensor := tmap (fun v => (v / c)%R) t.
Definition pow_scalar (t : Tensor) (e : R) : Tensor := tmap (fun v => pow v e) t.

(** ** Broadcasting binary operations ([a + b], [a - b], [a * b]) *)

Fixpoint shape_eqb (a b : list nat) : bool :=
  match a, b with
  | [], [] => true
  | x :: a', y :: b' => (x =? y) && shape_eqb a' b'
  | _, _ => false
  end.

(** Shapes are aligned from the last axis; two sizes are compatible when they
    are equal or one of them is 1. *)
Fixpoint broadcast_rev (a b : list nat) : result (list nat) :=
  match a, b with
  | [], _ => OK b
  | _, [] => OK a
  | x :: a', y :: b' =>
      r <- broadcast_rev a' b' ;;
      if x =? y then OK (x :: r)
      else if x =? 1 then OK (y :: r)
      else if y =? 1 then OK (x :: r)
      else Err RuntimeError
  end.

Definition broadcast_shapes (a b : list nat) : result (list nat) :=
  fmap (@rev nat) (broadcast_rev (rev a) (rev b)).

Definition bcast_index (s idx : list nat) : list nat :=
  map (fun di => if fst di =? 1 then 0 else snd di)
      (combine s (skipn (length idx - length s) idx)).

Definition binop (f : R -> R -> R) (a b : Tensor) : result Tensor :=
  s <- broadcast_shapes (shape a) (shape b) ;;
  OK (tabulate s (fun idx =>
        f (get a (bcast_index (shape a) idx)) (get b (bcast_index (shape b) idx)))).

Definition add : Tensor -> Tensor -> result Tensor := binop Rplus.
Definition sub : Tensor -> Tensor -> result Tensor := binop Rminus.
Definition mul : Tensor -> Tensor -> result Tensor := binop Rmult.

(** ** Indexing, stacking, splitting, concatenating *)

(** [t.select(d, c)]: axis [d] is removed. *)
Definition select (t : Tensor) (d c : nat) : result Tensor :=
  if d <? length (shape t) then
    if c <? dim (shape t) d then
      OK (tabulate (remove_at d (shape t)) (fun idx => get t (insert_at d c idx)))
    else Err IndexError
  else Err IndexError.

(** [image[:, c, :, :]]: four index positions need at least four axes. *)
Definition index_channel (image : Tensor) (c : nat) : result Tensor :=
  if length (shape image) <? 4 then Err IndexError else select image 1 c.

(** [torch.stack(ts, dim=d)] *)
Definition stack (ts : list Tensor) (d : nat) : result Tensor :=
  match ts with
  | [] => Err RuntimeError
  | t0 :: _ =>
      if forallb (fun t => shape_eqb (shape t) (shape t0)) ts then
        if d <=? length (shape t0) then
          OK (tabulate (insert_at d (length ts) (shape t0))
                (fun idx => get (nth (nth d idx 0) ts t0) (remove_at d idx)))
        else Err IndexError
      else Err RuntimeError
  end.

(** [t.narrow(d, start, len)] *)
Definition narrow (t : Tensor) (d start len : nat) : Tensor :=
  tabulate (set_at d len (shape t))
    (fun idx => get t (set_at d (nth d idx 0 + start) idx)).

(** [torch.split(t, split_size, dim=d)]: consecutive chunks of [split_size]
    along axis [d], the last one possibly shorter. *)
Definition split (t : Tensor) (split_size d : nat) : result (list Tensor) :=
  if d <? length (shape t) then
    if split_size =? 0 then Err RuntimeError
    else
      let n := dim (shape t) d in
      OK (map (fun k => narrow t d (k * split_size) (Nat.min split_size (n - k * split_size)))
              (seq 0 (Nat.max 1 ((n + split_size - 1) / split_size))))
  else Err IndexError.

Fixpoint cat_get (ts : list Tensor) (d : nat) (idx : list nat) : R :=
  match ts with
  | [] => 0%R
  | t :: ts' =>
      let n := dim (shape t) d in
      if nth d idx 0 <? n then get t idx
      else cat_get ts' d (set_at d (nth d idx 0 - n) idx)
  end.

(** [torch.cat(ts, dim=d)]: all shapes agree outside axis [d]. *)
Definition cat (ts : list Tensor) (d : nat) : result Tensor :=
  match ts with
  | [] => Err RuntimeError
  | t0 :: _ =>
      if d <? length (shape t0) then
        if forallb (fun t => (length (shape t) =? length (shape t0))
                             && shape_eqb (remove_at d (shape t)) (remove_at d (shape t0))) ts
        then OK (tabulate
                   (set_at d (fold_right (fun t acc => dim (shape t) d + acc) 0 ts) (shape t0))
                   (cat_get ts d))
        else Err RuntimeError
      else Err IndexError
  end.

(** ** Views: [reshape], [permute], [transpose(-2, -1)] *)

(** [t.reshape(dims)]: the elements keep their row-major order.  One entry
    may be [-1] and is then inferred from the number of elements. *)
Definition reshape_shape (s : list nat) (dims : list Z) : result (list nat) :=
  if existsb (fun d => (d <? -1)%Z) dims then Err RuntimeError
  else
    let n := numel s in
    let k := fold_right (fun d acc => if (d =? -1)%Z then acc else Z.to_nat d * acc) 1 dims in
    match count_occ Z.eq_dec dims (-1)%Z with
    | 0 => if k =? n then OK (map Z.to_nat dims) else Err RuntimeError
    | 1 => if k =? 0 then Err RuntimeError
           else if n mod k =? 0
                then OK (map (fun d => if (d =? -1)%Z then n / k else Z.to_nat d) dims)
                else Err RuntimeError
    | _ => Err RuntimeError
    end.

Definition reshape (t : Tensor) (dims : list Z) : result Tensor :=
  s <- reshape_shape (shape t) dims ;;
  OK (mkTensor s (data t)).

Fixpoint index_of (x : nat) (l : list nat) : nat :=
  match l with
  | [] => 0
  | y :: l' => if x =? y then 0 else S (index_of x l')
  end.

Definition is_perm (dims : list nat) (n : nat) : bool :=
  (length dims =? n) && forallb (fun j => existsb (Nat.eqb j) dims) (seq 0 n).

(** [t.permute(dims)]: axis [k] of the result is axis [dims[k]] of [t]. *)
Definition permute (t : Tensor) (dims : list nat) : result Tensor :=
  if is_perm dims (length (shape t)) then
    OK (tabulate (map (dim (shape t)) dims)
          (fun idx => get t (map (fun j => nth (index_of j dims) idx 0)
                                 (seq 0 (length dims)))))
  else Err RuntimeError.

(** [t.transpose(-2, -1)] *)
Definition transpose_last (t : Tensor) : result Tensor :=
  let n := length (shape t) in
  if n <? 2 then Err IndexError
  else permute t (seq 0 (n - 2) ++ [n - 1; n - 2]).

(** ** Layers *)

(** [nn.Linear]: [y = x W^T + b] on the last axis; [weight] has shape
    [(out_features, in_features)]. *)
Record Linear : Type := mkLinear { lin_weight : Tensor; lin_bias : Tensor }.

Definition linear_shape (ws bs xs : list nat) : result (list nat) :=
  match ws, xs with
  | [out_f; in_f], _ :: _ =>
      if (last xs 0 =? in_f) && shape_eqb bs [out_f]
      then OK (removelast xs ++ [out_f])
      else Err RuntimeError
  | _, _ => Err RuntimeError
  end.

Definition Linear_forward (l : Linear) (x : Tensor) : result Tensor :=
  s <- linear_shape (shape (lin_weight l)) (shape (lin_bias l)) (shape x) ;;
  OK (tabulate s (fun idx =>
        let o := last idx 0 in
        (get (lin_bias l) [o]
         + rsum (dim (shape (lin_weight l)) 1)
                (fun i => get x (removelast idx ++ [i]) * get (lin_weight l) [o; i]))%R)).

(** [nn.Conv2d] with square stride and zero padding; [weight] has shape
    [(out_channels, in_channels, kH, kW)].  The input is a batch
    [(N, C, H, W)] or a single unbatched image [(C, H, W)]. *)
Record Conv2d : Type := mkConv2d {
  conv_weight : Tensor;
  conv_bias : Tensor;
  conv_stride : nat;
  conv_padding : nat
}.

Definition conv_out (n k stride padding : nat) : nat :=
  (n + 2 * padding - k) / stride + 1.

Definition conv2d_shape (ws bs : list nat) (stride padding : nat) (xs : list nat)
  : result (list nat) :=
  match xs, ws with
  | [B; Cin; H; W], [Cout; Cin'; kH; kW] =>
      if negb ((Cin =? Cin') && shape_eqb bs [Cout]) then Err RuntimeError
      else if (H + 2 * padding <? kH) || (W + 2 * padding <? kW) then Err RuntimeError
      else OK [B; Cout; conv_out H kH stride padding; conv_out W kW stride padding]
  | _, _ => Err RuntimeError
  end.

(** The input seen through its zero padding. *)
Definition padded_get (x : Tensor) (padding b c i j : nat) : R :=
  if (padding <=? i) && (i <? dim (shape x) 2 + padding)
     && (padding <=? j) && (j <? dim (shape x) 3 + padding)
  then get x [b; c; i - padding; j - padding]
  else 0%R.

Definition conv2d_batched (c : Conv2d) (x : Tensor) : result Tensor :=
  let w := conv_weight c in
  s <- conv2d_shape (shape w) (shape (conv_bias c)) (conv_stride c) (conv_padding c) (shape x) ;;
  OK (tabulate s (fun idx =>
        match idx with
        | [b; o; i; j] =>
            (get (conv_bias c) [o]
             + rsum (dim (shape w) 1) (fun ci =>
                 rsum (dim (shape w) 2) (fun u =>
                   rsum (dim (shape w) 3) (fun v =>
                     get w [o; ci; u; v]
                     * padded_get x (conv_padding c) b ci
                         (i * conv_stride c + u) (j * conv_stride c + v)))))%R
        | _ => 0%R
        end)).

(** An unbatched image is given a batch axis of size 1, convolved, and the
    batch axis is dropped again; neither step moves an element. *)
Definition Conv2d_forward (c : Conv2d) (x : Tensor) : result Tensor :=
  match shape x with
  | [_; _; _] =>
      y <- conv2d_batched c (mkTensor (1 :: shape x) (data x)) ;;
      OK (mkTensor (tl (shape y)) (data y))
  | _ => conv2d_batched c x
  end.


(** [torch.matmul] on two 4-axis tensors: a matrix product over the last two
    axes for every pair of leading indices.  Both operands of the two
    products in the attention come from [split_heads] on the same input, so
    their leading axes are equal; broadcasting of leading axes is not
    modelled. *)
Definition matmul_shape (a b : list nat) : result (list nat) :=
  match a, b with
  | [b1; b2; n; m], [c1; c2; m'; p] =>
      if (b1 =? c1) && (b2 =? c2) && (m =? m') then OK [b1; b2; n; p]
      else Err RuntimeError
  | _, _ => Err RuntimeError
  end.

Definition matmul (a b : Tensor) : result Tensor :=
  s <- matmul_shape (shape a) (shape b) ;;
  OK (tabulate s (fun idx =>
        match idx with
        | [i1; i2; i; j] =>
            rsum (dim (shape a) 3) (fun k => get a [i1; i2; i; k] * get b [i1; i2; k; j])%R
        | _ => 0%R
        end)).

(** [F.softmax(t, dim=-1)] *)
Definition softmax_last (t : Tensor) : Tensor :=
  tabulate (shape t) (fun idx =>
    (exp (get t idx)
     / rsum (last (shape t) 1%nat) (fun k => exp (get t (removelast idx ++ [k]))))%R).

(** [nn.Upsample(scale_factor, mode='nearest')]: one to three spatial axes
    after the batch and channel axes. *)
Definition upsample_shape (scale : nat) (s : list nat) : result (list nat) :=
  match s with
  | B :: C :: sp =>
      if (1 <=? length sp) && (length sp <=? 3)
      then OK (B :: C :: map (Nat.mul scale) sp)
      else Err RuntimeError
  | _ => Err RuntimeError
  end.

Definition upsample_nearest (scale : nat) (t : Tensor) : result Tensor :=
  s <- upsample_shape scale (shape t) ;;
  OK (tabulate s (fun idx =>
        match idx with
        | b :: c :: r => get t (b :: c :: map (fun i => i / scale) r)
        | _ => 0%R
        end)).

(** The constructor [nn.Conv2d(in_channels, out_channels, kernel_size,
    stride, padding)] followed by [kaiming_uniform_] on the weight ([w] is
    what it draws) and [constant_(bias, 0)].  A weight with a negative size
    cannot be allocated. *)
Definition nn_Conv2d (in_channels out_channels kernel_size : Z) (stride padding : nat)
    (w : list nat -> R) : result Conv2d :=
  if (in_channels <? 0)%Z || (out_channels <? 0)%Z || (kernel_size <? 0)%Z
  then Err RuntimeError
  else OK (mkConv2d
             (tabulate [Z.to_nat out_channels; Z.to_nat in_channels;
                        Z.to_nat kernel_size; Z.to_nat kernel_size] w)
             (tabulate [Z.to_nat out_channels] (fun _ => 0%R))
             stride padding).

(** [a, b, c, d = x.size()] *)
Definition size4 (x : Tensor) : result (nat * nat * nat * nat) :=
  match shape x with
  | [a; b; c; d] => OK (a, b, c, d)
  | _ => Err ValueError
  end.

(** ** [class MultiHeadSelfAttention] *)

Module MultiHeadSelfAttention.

Record t : Type := mk {
  embed_size : Z;
  num_heads : Z;
  head_dim : Z;
  query_dense : Linear;
  key_dense : Linear;
  value_dense : Linear;
  combine_heads : Linear
}.

(** The values [_init_weights] draws for the four weight matrices
    ([init.xavier_uniform_] reads the global random generator). *)
Record draws : Type := mkDraws {
  draw_query : list nat -> R;
  draw_key : list nat -> R;
  draw_value : list nat -> R;
  draw_combine : list nat -> R
}.

(** [nn.Linear(n, n)] followed by [xavier_uniform_] on the weight and
    [constant_(bias, 0)].  A negative size is refused when the weight is
    allocated; with [n = 0] the Xavier bound divides by
    [fan_in + fan_out = 0]. *)
Definition dense (n : Z) (w : list nat -> R) : result Linear :=
  if (n <? 0)%Z then Err RuntimeError
  else if (n =? 0)%Z then Err ZeroDivisionError
  else OK (mkLinear (tabulate [Z.to_nat n; Z.to_nat n] w)
                    (tabulate [Z.to_nat n] (fun _ => 0%R))).

(** [__init__]: Python's [%] is the floor remainder ([Z.modulo]) and
    raises on a zero divisor; [//] is the floor quotient. *)
Definition __init__ (embed_size num_heads : Z) (d : draws) : result t :=
  if (num_heads =? 0)%Z then Err ZeroDivisionError
  else if negb (embed_size mod num_heads =? 0)%Z then Err AssertionError
  else
    let head_dim := (embed_size / num_heads)%Z in
    q <- dense embed_size (draw_query d) ;;
    k <- dense embed_size (draw_key d) ;;
    v <- dense embed_size (draw_value d) ;;
    c <- dense embed_size (draw_combine d) ;;
    OK (mk embed_size num_heads head_dim q k v c).

Definition split_heads (self : t) (x : Tensor) (batch_size : nat) : result Tensor :=
  x <- reshape x [Z.of_nat batch_size; (-1)%Z; num_heads self; head_dim self] ;;
  permute x [0; 2; 1; 3].

(** First statement pair of [forward]: the feature map becomes a sequence. *)
Definition to_sequence (x : Tensor) : result (Tensor * (nat * nat * nat)) :=
  sz <- size4 x ;;
  let '(batch_size, _, height, width) := sz in
  x <- reshape x [Z.of_nat batch_size; Z.of_nat (height * width); (-1)%Z] ;;
  OK (x, (batch_size, height, width)).

(** Last statement of [forward]: the sequence becomes a feature map. *)
Definition from_sequence (self : t) (output : Tensor) (batch_size height width : nat)
  : result Tensor :=
  o <- reshape output [Z.of_nat batch_size; Z.of_nat height; Z.of_nat width; embed_size self] ;;
  permute o [0; 3; 1; 2].

(** The attention between the two: projections, scaled dot products,
    softmax over the key axis, weighted sum, recombination of the heads. *)
Definition attend (self : t) (x : Tensor) (batch_size : nat) : result Tensor :=
  q <- Linear_forward (query_dense self) x ;;
  query <- split_heads self q batch_size ;;
  k <- Linear_forward (key_dense self) x ;;
  key <- split_heads self k batch_size ;;
  v <- Linear_forward (value_dense self) x ;;
  value <- split_heads self v batch_size ;;
  key_t <- transpose_last key ;;
  scores <- matmul query key_t ;;
  let attention_weights :=
    softmax_last (div_scalar scores (sqrt (IZR (head_dim self)))) in
  attention <- matmul attention_weights value ;;
  attention <- permute attention [0; 2; 1; 3] ;;
  attention <- reshape attention [Z.of_nat batch_size; (-1)%Z; embed_size self] ;;
  Linear_forward (combine_heads self) attention.

Definition forward (self : t) (x : Tensor) : result Tensor :=
  xs <- to_sequence x ;;
  let '(x, (batch_size, height, width)) := xs in
  output <- attend self x batch_size ;;
  from_sequence self output batch_size height width.

End MultiHeadSelfAttention.

(** ** [class Denoiser] *)

Module Denoiser.

Record t : Type := mk {
  conv1 : Conv2d;
  conv2 : Conv2d;
  conv3 : Conv2d;
  conv4 : Conv2d;
  bottleneck : MultiHeadSelfAttention.t;
  up2 : nat;
  up3 : nat;
  up4 : nat;
  output_layer : Conv2d;
  res_layer : Conv2d;
  activation : R -> R
}.

(** The values [kaiming_uniform_] draws for the six convolutions and the
    draws of the bottleneck. *)
Record draws : Type := mkDraws {
  draw_conv1 : list nat -> R;
  draw_conv2 : list nat -> R;
  draw_conv3 : list nat -> R;
  draw_conv4 : list nat -> R;
  draw_bottleneck : MultiHeadSelfAttention.draws;
  draw_output_layer : list nat -> R;
  draw_res_layer : list nat -> R
}.

(** [__init__(num_filters, kernel_size=3, activation='relu')];
    [activation] is the elementwise function that [getattr(F, name)]
    resolves to, [relu] for the default name. *)
Definition __init__ (num_filters kernel_size : Z) (activation : R -> R) (d : draws)
  : result t :=
  c1 <- nn_Conv2d 1 num_filters kernel_size 1 1 (draw_conv1 d) ;;
  c2 <- nn_Conv2d num_filters num_filters kernel_size 2 1 (draw_conv2 d) ;;
  c3 <- nn_Conv2d num_filters num_filters kernel_size 2 1 (draw_conv3 d) ;;
  c4 <- nn_Conv2d num_filters num_filters kernel_size 2 1 (draw_conv4 d) ;;
  att <- MultiHeadSelfAttention.__init__ num_filters 4 (draw_bottleneck d) ;;
  out <- nn_Conv2d 1 1 kernel_size 1 1 (draw_output_layer d) ;;
  res <- nn_Conv2d num_filters 1 kernel_size 1 1 (draw_res_layer d) ;;
  OK (mk c1 c2 c3 c4 att 2 2 2 out res activation).

Definition forward (self : t) (x : Tensor) : result Tensor :=
  c1 <- Conv2d_forward (conv1 self) x ;;
  let x1 := tmap (activation self) c1 in
  c2 <- Conv2d_forward (conv2 self) x1 ;;
  let x2 := tmap (activation self) c2 in
  c3 <- Conv2d_forward (conv3 self) x2 ;;
  let x3 := tmap (activation self) c3 in
  c4 <- Conv2d_forward (conv4 self) x3 ;;
  let x4 := tmap (activation self) c4 in
  x <- MultiHeadSelfAttention.forward (bottleneck self) x4 ;;
  x <- upsample_nearest (up4 self) x ;;
  s3 <- add x x3 ;;
  x <- upsample_nearest (up3 self) s3 ;;
  s2 <- add x x2 ;;
  x <- upsample_nearest (up2 self) s2 ;;
  x <- add x x1 ;;
  x <- Conv2d_forward (res_layer self) x ;;
  xx <- add x x ;;
  o <- Conv2d_forward (output_layer self) xx ;;
  OK (tmap tanh o).

End Denoiser.

(** ** [class GammaUnet] *)

Module GammaUnet.

Record t : Type := mk {
  denoiser_y : Denoiser.t;
  denoiser_cb : Denoiser.t;
  denoiser_cr : Denoiser.t;
  final_conv : Conv2d;
  gamma : R
}.

Record draws : Type := mkDraws {
  draw_y : Denoiser.draws;
  draw_cb : Denoiser.draws;
  draw_cr : Denoiser.draws;
  draw_final_conv : list nat -> R
}.

(** [__init__(num_filters=32)] *)
Definition __init__ (num_filters : Z) (d : draws) : result t :=
  dy <- Denoiser.__init__ num_filters 3 relu (draw_y d) ;;
  dcb <- Denoiser.__init__ num_filters 3 relu (draw_cb d) ;;
  dcr <- Denoiser.__init__ num_filters 3 relu (draw_cr d) ;;
  fc <- nn_Conv2d 3 3 3 1 1 (draw_final_conv d) ;;
  OK (mk dy dcb dcr fc 0.4).

(** [sign(v) * (|v| + eps) ** (1/3)] *)
Definition cube_root_base (v : Tensor) : Tensor := add_scalar (tmap Rabs v) 1e-6.

Definition cube_root (v : Tensor) : result Tensor :=
  mul (tmap sign v) (pow_scalar (cube_root_base v) (1 / 3)).

Definition _rgb_to_oklab (image : Tensor) : result Tensor :=
  r <- index_channel image 0 ;;
  g <- index_channel image 1 ;;
  b <- index_channel image 2 ;;
  l <- (t <- add (mul_scalar 0.4122214708 r) (mul_scalar 0.5363325363 g) ;;
        add t (mul_scalar 0.0514459929 b)) ;;
  m <- (t <- add (mul_scalar 0.2119034982 r) (mul_scalar 0.6806995451 g) ;;
        add t (mul_scalar 0.1073969566 b)) ;;
  s <- (t <- add (mul_scalar 0.0883024619 r) (mul_scalar 0.2817188376 g) ;;
        add t (mul_scalar 0.6299787005 b)) ;;
  l_ <- cube_root l ;;
  m_ <- cube_root m ;;
  s_ <- cube_root s ;;
  L <- (t <- add (mul_scalar 0.2104542553 l_) (mul_scalar 0.7936177850 m_) ;;
        sub t (mul_scalar 0.0040720468 s_)) ;;
  a <- (t <- sub (mul_scalar 1.9779984951 l_) (mul_scalar 2.4285922050 m_) ;;
        add t (mul_scalar 0.4505937099 s_)) ;;
  b_out <- (t <- add (mul_scalar 0.0259040371 l_) (mul_scalar 0.7827717662 m_) ;;
            sub t (mul_scalar 0.8086757660 s_)) ;;
  stack [L; a; b_out] 1.


(** The base handed to [torch.pow]: the clamped image plus [eps]. *)
Definition gamma_base (image : Tensor) : Tensor :=
  add_scalar (clamp image 0 1) 1e-8.

Definition _gamma_correction (image : Tensor) (gamma : R) : Tensor :=
  pow_scalar (gamma_base image) gamma.

(** [forward] up to the three tensors handed to the denoisers. *)
Definition branches (self : t) (x : Tensor) : result (Tensor * Tensor * Tensor) :=
  ycbcr <- _rgb_to_oklab x ;;
  chunks <- split ycbcr 1 1 ;;
  match chunks with
  | [y; cb; cr] =>
      let y := _gamma_correction y (gamma self) in
      let cb := _gamma_correction cb (gamma self) in
      OK (y, cb, cr)
  | _ => Err ValueError
  end.

Definition forward (self : t) (x : Tensor) : result Tensor :=
  ins <- branches self x ;;
  let '(y, cb, cr) := ins in
  y_denoised <- Denoiser.forward (denoiser_y self) y ;;
  cb_denoised <- Denoiser.forward (denoiser_cb self) cb ;;
  cr_denoised <- Denoiser.forward (denoiser_cr self) cr ;;
  combined <- cat [y_denoised; cb_denoised; cr_denoised] 1 ;;
  output <- Conv2d_forward (final_conv self) combined ;;
  OK (tmap sigmoid output).

End GammaUnet.

(** ** Parameter shapes

    The shapes the constructors give to the parameters; loading a checkpoint
    replaces the values and keeps the shapes. *)

Definition wf_Linear (n : nat) (l : Linear) : Prop :=
  shape (lin_weight l) = [n; n] /\ shape (lin_bias l) = [n].

Definition wf_Conv2d (cin cout k stride padding : nat) (c : Conv2d) : Prop :=
  shape (conv_weight c) = [cout; cin; k; k] /\ shape (conv_bias c) = [cout]
  /\ conv_stride c = stride /\ conv_padding c = padding.

Definition wf_MHSA (E heads : nat) (m : MultiHeadSelfAttention.t) : Prop :=
  0 < E /\ 0 < heads /\ E mod heads = 0
  /\ MultiHeadSelfAttention.embed_size m = Z.of_nat E
  /\ MultiHeadSelfAttention.num_heads m = Z.of_nat heads
  /\ MultiHeadSelfAttention.head_dim m = Z.of_nat (E / heads)
  /\ wf_Linear E (MultiHeadSelfAttention.query_dense m)
  /\ wf_Linear E (MultiHeadSelfAttention.key_dense m)
  /\ wf_Linear E (MultiHeadSelfAttention.value_dense m)
  /\ wf_Linear E (MultiHeadSelfAttention.combine_heads m).

(** A denoiser with [num_filters = F] and the default [kernel_size = 3]. *)
Definition wf_Denoiser (F : nat) (D : Denoiser.t) : Prop :=
  wf_Conv2d 1 F 3 1 1 (Denoiser.conv1 D)
  /\ wf_Conv2d F F 3 2 1 (Denoiser.conv2 D)
  /\ wf_Conv2d F F 3 2 1 (Denoiser.conv3 D)
  /\ wf_Conv2d F F 3 2 1 (Denoiser.conv4 D)
  /\ wf_MHSA F 4 (Denoiser.bottleneck D)
  /\ Denoiser.up2 D = 2 /\ Denoiser.up3 D = 2 /\ Denoiser.up4 D = 2
  /\ wf_Conv2d 1 1 3 1 1 (Denoiser.output_layer D)
  /\ wf_Conv2d F 1 3 1 1 (Denoiser.res_layer D).

Definition wf_GammaUnet (F : nat) (P : GammaUnet.t) : Prop :=
  wf_Denoiser F (GammaUnet.denoiser_y P)
  /\ wf_Denoiser F (GammaUnet.denoiser_cb P)
  /\ wf_Denoiser F (GammaUnet.denoiser_cr P)
  /\ wf_Conv2d 3 3 3 1 1 (GammaUnet.final_conv P)
  /\ GammaUnet.gamma P = 0.4%R.

(** ** Shapes along the decoder

    The size one spatial axis has after each stage of [Denoiser.forward],
    starting from size [n]: three strided convolutions down, then three
    times an upsampling and a broadcasting addition with the encoder's
    feature map of that scale. *)

Definition broadcast_dim (a b : nat) : result nat :=
  if a =? b then OK a
  else if a =? 1 then OK b
  else if b =? 1 then OK a
  else Err RuntimeError.

Definition down (n : nat) : nat := conv_out n 3 2 1.

Definition skip_dim (n : nat) : result nat :=
  let n2 := down n in
  let n3 := down n2 in
  let n4 := down n3 in
  a3 <- broadcast_dim (2 * n4) n3 ;;
  a2 <- broadcast_dim (2 * a3) n2 ;;
  broadcast_dim (2 * a2) n.

Definition Denoiser_shape (B H W : nat) : result (list nat) :=
  match skip_dim H, skip_dim W with
  | OK h, OK w => OK [B; 1; h; w]
  | _, _ => Err RuntimeError
  end.

(** ** Concrete instances

    A model built by the constructors with the default [num_filters = 32]
    (every draw taken as [0]; the theorems hold for all parameter values),
    and a few inputs. *)

Definition zero_draw : list nat -> R := fun _ => 0%R.

Definition attention_draws : MultiHeadSelfAttention.draws :=
  MultiHeadSelfAttention.mkDraws zero_draw zero_draw zero_draw zero_draw.

Definition denoiser_draws : Denoiser.draws :=
  Denoiser.mkDraws zero_draw zero_draw zero_draw zero_draw attention_draws
                   zero_draw zero_draw.

Definition model_draws : GammaUnet.draws :=
  GammaUnet.mkDraws denoiser_draws denoiser_draws denoiser_draws zero_draw.

Definition zeros (s : list nat) : Tensor := tabulate s zero_draw.

Definition example_attention : MultiHeadSelfAttention.t :=
  MultiHeadSelfAttention.mk 32 4 8
    (mkLinear (zeros [32; 32]) (zeros [32]))
    (mkLinear (zeros [32; 32]) (zeros [32]))
    (mkLinear (zeros [32; 32]) (zeros [32]))
    (mkLinear (zeros [32; 32]) (zeros [32])).

Definition example_denoiser : Denoiser.t :=
  Denoiser.mk
    (mkConv2d (zeros [32; 1; 3; 3]) (zeros [32]) 1 1)
    (mkConv2d (zeros [32; 32; 3; 3]) (zeros [32]) 2 1)
    (mkConv2d (zeros [32; 32; 3; 3]) (zeros [32]) 2 1)
    (mkConv2d (zeros [32; 32; 3; 3]) (zeros [32]) 2 1)
    example_attention 2 2 2
    (mkConv2d (zeros [1; 1; 3; 3]) (zeros [1]) 1 1)
    (mkConv2d (zeros [1; 32; 3; 3]) (zeros [1]) 1 1)
    relu.

Definition example_model : GammaUnet.t :=
  GammaUnet.mk example_denoiser example_denoiser example_denoiser
    (mkConv2d (zeros [3; 3; 3; 3]) (zeros [3]) 1 1) 0.4.

(** A batch of one 64x64 RGB image, every pixel 0.5. *)
Definition grey_image_64 : Tensor := tabulate [1; 3; 64; 64] (fun _ => 0.5%R).

(** One 8x8 image with four channels. *)
Definition four_channel_image : Tensor := tabulate [1; 4; 8; 8] (fun _ => 0.5%R).

(** One channel of a 10x10 image, and a single pixel. *)
Definition channel_10x10 : Tensor := tabulate [1; 1; 10; 10] (fun _ => 0.5%R).
Definition channel_1x1 : Tensor := mkTensor [1; 1; 1; 1] [0.5%R].

(** A feature map with two channels over a 1x2 grid: channel 0 is [1 2],
    channel 1 is [3 4]. *)
Definition two_channel_map : Tensor := mkTensor [1; 2; 1; 2] [1; 2; 3; 4]%R.

(** One 8x8 image with two channels only. *)
Definition two_channel_image : Tensor := tabulate [1; 2; 8; 8] (fun _ => 0.5%R).

(** One channel of a 64x64 image. *)
Definition channel_64x64 : Tensor := tabulate [1; 1; 64; 64] (fun _ => 0.5%R).

(** An attention block for two-channel maps: [embed_size = 2],
    [num_heads = 2]. *)
Definition tiny_attention : MultiHeadSelfAttention.t :=
  MultiHeadSelfAttention.mk 2 2 1
    (mkLinear (zeros [2; 2]) (zeros [2]))
    (mkLinear (zeros [2; 2]) (zeros [2]))
    (mkLinear (zeros [2; 2]) (zeros [2]))
    (mkLinear (zeros [2; 2]) (zeros [2])).

(** A sequence of two tokens with two features each. *)
Definition two_token_sequence : Tensor := mkTensor [1; 2; 2] [1; 2; 3; 4]%R.

(** One 8x8 channel without a batch axis. *)
Definition unbatched_channel : Tensor := tabulate [1; 8; 8] (fun _ => 0.5%R).

(** One black 8x8 image. *)
Definition black_image : Tensor := zeros [1; 3; 8; 8].

(** A brighter single pixel. *)
Definition bright_1x1 : Tensor := mkTensor [1; 1; 1; 1] [0.75%R].

(** ** Pointwise descriptions

    [pointwise s t f]: the tensor [t] has shape [s], as many elements as its
    shape says, and element [idx] is [f idx] for every index inside [s]. *)

Definition pointwise (s : list nat) (t : Tensor) (f : list nat -> R) : Prop :=
  shape t = s /\ wf_tensor t /\ forall idx, in_range s idx -> get t idx = f idx.

(** One pixel of the Oklab conversion, as the arithmetic of
    [_rgb_to_oklab] reads for a single position. *)
Definition cbrt_eps (v : R) : R := (sign v * pow (Rabs v + 1e-6) (1 / 3))%R.

Definition oklab_pixel (r g b : R) : R * R * R :=
  let l := (0.4122214708 * r + 0.5363325363 * g + 0.0514459929 * b)%R in
  let m := (0.2119034982 * r + 0.6806995451 * g + 0.1073969566 * b)%R in
  let s := (0.0883024619 * r + 0.2817188376 * g + 0.6299787005 * b)%R in
  let l_ := cbrt_eps l in
  let m_ := cbrt_eps m in
  let s_ := cbrt_eps s in
  ((0.2104542553 * l_ + 0.7936177850 * m_ - 0.0040720468 * s_)%R,
   (1.9779984951 * l_ - 2.4285922050 * m_ + 0.4505937099 * s_)%R,
   (0.0259040371 * l_ + 0.7827717662 * m_ - 0.8086757660 * s_)%R).


(** The spatial sizes [Denoiser.forward] accepts, and what it makes of
    them. *)
Definition size_ok (n : nat) : Prop := n = 1 \/ (0 < n /\ n mod 8 = 0).

Definition out_size (n : nat) : nat := if n =? 1 then 8 else n.

(** The bias tensors of a denoiser and of the whole model. *)
Definition Denoiser_biases (D : Denoiser.t) : list Tensor :=
  [conv_bias (Denoiser.conv1 D); conv_bias (Denoiser.conv2 D);
   conv_bias (Denoiser.conv3 D); conv_bias (Denoiser.conv4 D);
   lin_bias (MultiHeadSelfAttention.query_dense (Denoiser.bottleneck D));
   lin_bias (MultiHeadSelfAttention.key_dense (Denoiser.bottleneck D));
   lin_bias (MultiHeadSelfAttention.value_dense (Denoiser.bottleneck D));
   lin_bias (MultiHeadSelfAttention.combine_heads (Denoiser.bottleneck D));
   conv_bias (Denoiser.output_layer D); conv_bias (Denoiser.res_layer D)].

Definition GammaUnet_biases (P : GammaUnet.t) : list Tensor :=
  Denoiser_biases (GammaUnet.denoiser_y P)
  ++ Denoiser_biases (GammaUnet.denoiser_cb P)
  ++ Denoiser_biases (GammaUnet.denoiser_cr P)
  ++ [conv_bias (GammaUnet.final_conv P)].

Definition all_zero (t : Tensor) : Prop := Forall (fun v => v = 0%R) (data t).
(** ** Index arithmetic *)

Lemma ravel_lt s : forall idx, in_range s idx -> ravel s idx < numel s.
Proof.
  induction s as [|d s IH]; intros idx H; inversion H; subst; cbn.
  - lia.
  - match goal with
    | Hr : Forall2 lt _ s, Hi : ?i < d |- _ =>
        specialize (IH _ Hr);
        assert (S i * numel s <= d * numel s) by (apply Nat.mul_le_mono_r; lia)
    end.
    fold (numel s). lia.
Qed.

Lemma unravel_ravel s : forall idx, in_range s idx -> unravel s (ravel s idx) = idx.
Proof.
  induction s as [|d s IH]; intros idx H; inversion H; subst; cbn.
  - reflexivity.
  - match goal with Hr : Forall2 lt _ s |- _ =>
      pose proof (ravel_lt Hr) as Hlt; specialize (IH _ Hr) end.
    assert (Hn : numel s <> 0) by lia.
    rewrite Nat.div_add_l, Nat.div_small, Nat.add_0_r by assumption.
    rewrite Nat.add_comm, Nat.Div0.mod_add, Nat.mod_small by assumption.
    now rewrite IH.
Qed.

Lemma tabulate_wf s f : wf_tensor (tabulate s f).
Proof. unfold wf_tensor, tabulate; cbn. now rewrite length_map, length_seq. Qed.

Lemma tmap_wf f t : wf_tensor t -> wf_tensor (tmap f t).
Proof. unfold wf_tensor, tmap; cbn. now rewrite length_map. Qed.

Lemma get_tabulate s f idx : in_range s idx -> get (tabulate s f) idx = f idx.
Proof.
  intros H. unfold get, tabulate; cbn [shape data].
  pose proof (ravel_lt H) as Hlt.
  rewrite nth_indep with (d' := f (unravel s 0))
    by now rewrite length_map, length_seq.
  rewrite (map_nth (fun k => f (unravel s k))), seq_nth by assumption.
  cbn. now rewrite unravel_ravel.
Qed.

Lemma get_tmap f t idx :
  wf_tensor t -> in_range (shape t) idx -> get (tmap f t) idx = f (get t idx).
Proof.
  intros Hw H. unfold get, tmap; cbn [shape data].
  pose proof (ravel_lt H) as Hlt.
  rewrite nth_indep with (d' := f 0%R) by (rewrite length_map, Hw; exact Hlt).
  apply map_nth.
Qed.

(** ** Shapes of the operations *)

Lemma shape_eqb_refl s : shape_eqb s s = true.
Proof. induction s; cbn; [reflexivity | now rewrite Nat.eqb_refl]. Qed.

Lemma shape_eqb_eq a : forall b, shape_eqb a b = true <-> a = b.
Proof.
  induction a as [|x a IH]; intros [|y b]; cbn; split; intros H;
    try reflexivity; try discriminate.
  - apply andb_true_iff in H as [H1 H2]. apply Nat.eqb_eq in H1.
    apply IH in H2. now subst.
  - injection H as -> ->. now rewrite Nat.eqb_refl, shape_eqb_refl.
Qed.

Lemma broadcast_rev_refl s : broadcast_rev s s = OK s.
Proof.
  induction s as [|x s IH]; cbn; [reflexivity|].
  now rewrite IH; cbn; rewrite Nat.eqb_refl.
Qed.

Lemma broadcast_shapes_refl s : broadcast_shapes s s = OK s.
Proof.
  unfold broadcast_shapes. rewrite broadcast_rev_refl. cbn. now rewrite rev_involutive.
Qed.

Lemma broadcast_shapes_4 B F a b c d :
  broadcast_shapes [B; F; a; b] [B; F; c; d] =
  match broadcast_dim a c, broadcast_dim b d with
  | OK x, OK y => OK [B; F; x; y]
  | _, _ => Err RuntimeError
  end.
Proof.
  unfold broadcast_shapes, broadcast_dim; cbn. rewrite !Nat.eqb_refl; cbn.
  destruct (a =? c); [|destruct (a =? 1); [|destruct (c =? 1)]]; cbn;
    (destruct (b =? d); [|destruct (b =? 1); [|destruct (d =? 1)]]); reflexivity.
Qed.

Lemma binop_shape f a b :
  shape_of (binop f a b) = broadcast_shapes (shape a) (shape b).
Proof.
  unfold shape_of, binop, fmap.
  destruct (broadcast_shapes (shape a) (shape b)); reflexivity.
Qed.

Lemma binop_same f a b :
  shape b = shape a ->
  exists y, binop f a b = OK y /\ shape y = shape a.
Proof.
  intros E. unfold binop. rewrite E, broadcast_shapes_refl. cbn. eauto.
Qed.

Lemma shape_of_OK m s :
  shape_of m = OK s -> exists y, m = OK y /\ shape y = s.
Proof.
  destruct m as [y|e]; cbn; intros H; [injection H as <-; eauto | discriminate].
Qed.

Lemma shape_of_Err m e : shape_of m = Err e -> m = Err e.
Proof. destruct m; cbn; intros H; [discriminate | now injection H as ->]. Qed.

(** ** Shapes of [reshape] at the shapes the attention uses *)

Lemma of_nat_ltb_m1 n : (Z.of_nat n <? -1)%Z = false.
Proof. apply Z.ltb_ge. lia. Qed.

Lemma of_nat_eqb_m1 n : (Z.of_nat n =? -1)%Z = false.
Proof. apply Z.eqb_neq. lia. Qed.

Lemma count_occ_of_nat_m1 n l :
  count_occ Z.eq_dec (Z.of_nat n :: l) (-1)%Z = count_occ Z.eq_dec l (-1)%Z.
Proof. apply count_occ_cons_neq. lia. Qed.

Lemma count_occ_m1 l :
  count_occ Z.eq_dec ((-1)%Z :: l) (-1)%Z = S (count_occ Z.eq_dec l (-1)%Z).
Proof. now apply count_occ_cons_eq. Qed.

Ltac reshape_norm :=
  unfold reshape_shape;
  cbn [existsb fold_right map orb numel];
  rewrite ?of_nat_ltb_m1, ?of_nat_eqb_m1, ?count_occ_of_nat_m1, ?count_occ_m1;
  rewrite ?count_occ_of_nat_m1, ?count_occ_m1, ?Nat2Z.id;
  change ((-1 <? -1)%Z) with false; change ((-1 =? -1)%Z) with true;
  cbn [orb count_occ].

Lemma reshape_shape_exact4 s a b c d :
  numel s = a * b * c * d ->
  reshape_shape s [Z.of_nat a; Z.of_nat b; Z.of_nat c; Z.of_nat d] = OK [a; b; c; d].
Proof.
  intros Hn. reshape_norm.
  replace (a * (b * (c * (d * 1))) =? numel s) with true; [reflexivity|].
  symmetry. apply Nat.eqb_eq. lia.
Qed.

Lemma reshape_shape_infer_last s a b n :
  numel s = a * b * n -> 0 < a -> 0 < b ->
  reshape_shape s [Z.of_nat a; Z.of_nat b; (-1)%Z] = OK [a; b; n].
Proof.
  intros Hn Ha Hb. reshape_norm.
  assert (Hk : a * (b * 1) = a * b) by lia. rewrite Hk.
  assert (Hab : a * b <> 0) by lia.
  replace (a * b =? 0) with false by (symmetry; now apply Nat.eqb_neq).
  replace (numel s) with (n * (a * b)) by lia.
  rewrite Nat.Div0.mod_mul, Nat.div_mul by assumption. reflexivity.
Qed.

Lemma reshape_shape_infer_1of3 s a n c :
  numel s = a * n * c -> 0 < a -> 0 < c ->
  reshape_shape s [Z.of_nat a; (-1)%Z; Z.of_nat c] = OK [a; n; c].
Proof.
  intros Hn Ha Hc. reshape_norm.
  assert (Hk : a * (c * 1) = a * c) by lia. rewrite Hk.
  assert (Hac : a * c <> 0) by lia.
  replace (a * c =? 0) with false by (symmetry; now apply Nat.eqb_neq).
  replace (numel s) with (n * (a * c)) by lia.
  rewrite Nat.Div0.mod_mul, Nat.div_mul by assumption. reflexivity.
Qed.

Lemma reshape_shape_infer_1of4 s a n c d :
  numel s = a * n * c * d -> 0 < a -> 0 < c -> 0 < d ->
  reshape_shape s [Z.of_nat a; (-1)%Z; Z.of_nat c; Z.of_nat d] = OK [a; n; c; d].
Proof.
  intros Hn Ha Hc Hd. reshape_norm.
  assert (Hk : a * (c * (d * 1)) = a * c * d) by lia. rewrite Hk.
  assert (Hac : a * c * d <> 0) by lia.
  replace (a * c * d =? 0) with false by (symmetry; now apply Nat.eqb_neq).
  replace (numel s) with (n * (a * c * d)) by lia.
  rewrite Nat.Div0.mod_mul, Nat.div_mul by assumption. reflexivity.
Qed.

Lemma reshape_ok t dims s :
  reshape_shape (shape t) dims = OK s ->
  reshape t dims = OK (mkTensor s (data t)).
Proof. unfold reshape. now intros ->. Qed.

(** ** Shapes of the other operations *)

Lemma permute_ok t dims :
  is_perm dims (length (shape t)) = true ->
  exists y, permute t dims = OK y /\ shape y = map (dim (shape t)) dims.
Proof. unfold permute. intros ->. eauto. Qed.

Lemma Linear_forward_ok n l x pre :
  wf_Linear n l -> shape x = pre ++ [n] ->
  exists y, Linear_forward l x = OK y /\ shape y = pre ++ [n].
Proof.
  intros [Hw Hb] Hx. unfold Linear_forward, linear_shape. rewrite Hw, Hb, Hx.
  destruct (pre ++ [n]) eqn:E; [now destruct pre|]. rewrite <- E.
  rewrite last_last, Nat.eqb_refl, removelast_last. cbn. rewrite Nat.eqb_refl. cbn.
  eauto.
Qed.

Lemma conv2d_batched_ok cin cout k stride padding c x B H W :
  wf_Conv2d cin cout k stride padding c -> shape x = [B; cin; H; W] ->
  k <= H + 2 * padding -> k <= W + 2 * padding ->
  exists y, conv2d_batched c x = OK y
            /\ shape y = [B; cout; conv_out H k stride padding; conv_out W k stride padding].
Proof.
  intros (Hw & Hb & Hs & Hp) Hx HH HW.
  unfold conv2d_batched, conv2d_shape. rewrite Hw, Hb, Hx, Hs, Hp.
  cbn [shape_eqb]. rewrite !Nat.eqb_refl. cbn [andb negb].
  replace (H + 2 * padding <? k) with false by (symmetry; apply Nat.ltb_ge; lia).
  replace (W + 2 * padding <? k) with false by (symmetry; apply Nat.ltb_ge; lia).
  cbn. eauto.
Qed.

Lemma Conv2d_forward_batched c x :
  length (shape x) <> 3 -> Conv2d_forward c x = conv2d_batched c x.
Proof.
  intros H. unfold Conv2d_forward.
  destruct (shape x) as [|a [|b [|d [|e l]]]]; try reflexivity.
  cbn in H. lia.
Qed.

Lemma Conv2d_forward_ok cin cout k stride padding c x B H W :
  wf_Conv2d cin cout k stride padding c -> shape x = [B; cin; H; W] ->
  k <= H + 2 * padding -> k <= W + 2 * padding ->
  exists y, Conv2d_forward c x = OK y
            /\ shape y = [B; cout; conv_out H k stride padding; conv_out W k stride padding].
Proof.
  intros Hc Hx HH HW.
  rewrite Conv2d_forward_batched by (rewrite Hx; discriminate).
  now apply conv2d_batched_ok with (cin := cin).
Qed.

Lemma Conv2d_forward_unbatched_ok cin cout k stride padding c x H W :
  wf_Conv2d cin cout k stride padding c -> shape x = [cin; H; W] ->
  k <= H + 2 * padding -> k <= W + 2 * padding ->
  exists y, Conv2d_forward c x = OK y
            /\ shape y = [cout; conv_out H k stride padding; conv_out W k stride padding].
Proof.
  intros Hc Hx HH HW. unfold Conv2d_forward. rewrite Hx.
  destruct (@conv2d_batched_ok cin cout k stride padding c
              (mkTensor [1; cin; H; W] (data x)) 1 H W Hc eq_refl HH HW)
    as (y & Ey & Sy).
  rewrite Ey. cbn [bind]. eexists. split; [reflexivity|].
  cbn [shape]. now rewrite Sy.
Qed.

Lemma upsample_nearest_ok t B C H W :
  shape t = [B; C; H; W] ->
  exists y, upsample_nearest 2 t = OK y /\ shape y = [B; C; 2 * H; 2 * W].
Proof. intros Hx. unfold upsample_nearest, upsample_shape. rewrite Hx. cbn. eauto. Qed.

Lemma matmul_ok a b b1 b2 n m p :
  shape a = [b1; b2; n; m] -> shape b = [b1; b2; m; p] ->
  exists y, matmul a b = OK y /\ shape y = [b1; b2; n; p].
Proof.
  intros Ha Hb. unfold matmul, matmul_shape. rewrite Ha, Hb, !Nat.eqb_refl. cbn. eauto.
Qed.

(** ** [MultiHeadSelfAttention.forward] returns a map of the input's shape *)

Ltac step H :=
  let y := fresh "y" in
  let E := fresh "E" y in
  let S := fresh "S" y in
  destruct H as (y & E & S); rewrite E; cbn [bind].

Lemma split_heads_ok E heads m x B T :
  wf_MHSA E heads m -> shape x = [B; T; E] -> 0 < B ->
  exists y, MultiHeadSelfAttention.split_heads m x B = OK y
            /\ shape y = [B; heads; T; E / heads].
Proof.
  intros (HE & Hh & Hmod & _ & Hnh & Hhd & _) Hx HB.
  unfold MultiHeadSelfAttention.split_heads. rewrite Hnh, Hhd.
  assert (Hdiv : E = heads * (E / heads)).
  { apply Nat.Div0.div_exact. exact Hmod. }
  assert (0 < E / heads) by (destruct (E / heads); lia).
  rewrite (@reshape_ok x _ [B; T; heads; E / heads]).
  - cbn [bind]. apply permute_ok. reflexivity.
  - apply reshape_shape_infer_1of4; try assumption.
    rewrite Hx. cbn [numel fold_right]. rewrite Hdiv at 1. lia.
Qed.

Lemma to_sequence_ok x B F h w :
  shape x = [B; F; h; w] -> 0 < B -> 0 < h -> 0 < w ->
  MultiHeadSelfAttention.to_sequence x
  = OK (mkTensor [B; h * w; F] (data x), (B, h, w)).
Proof.
  intros Hx HB Hh Hw. unfold MultiHeadSelfAttention.to_sequence, size4.
  rewrite Hx. cbn [bind].
  rewrite (@reshape_ok x _ [B; h * w; F]); [reflexivity|].
  apply reshape_shape_infer_last; try lia.
  rewrite Hx. cbn [numel fold_right]. lia.
Qed.

Lemma attend_ok E heads m x B T :
  wf_MHSA E heads m -> shape x = [B; T; E] -> 0 < B ->
  exists y, MultiHeadSelfAttention.attend m x B = OK y /\ shape y = [B; T; E].
Proof.
  intros Hwf Hx HB.
  pose proof Hwf as (HE & Hh & Hmod & Hes & Hnh & Hhd & Hq & Hk & Hv & Hc).
  unfold MultiHeadSelfAttention.attend.
  step (@Linear_forward_ok E _ x [B; T] Hq Hx).
  step (@split_heads_ok E heads m y B T Hwf Sy HB).
  step (@Linear_forward_ok E _ x [B; T] Hk Hx).
  step (@split_heads_ok E heads m y1 B T Hwf Sy1 HB).
  step (@Linear_forward_ok E _ x [B; T] Hv Hx).
  step (@split_heads_ok E heads m y3 B T Hwf Sy3 HB).
  assert (Ht : exists y, transpose_last y2 = OK y /\ shape y = [B; heads; E / heads; T]).
  { unfold transpose_last. rewrite Sy2. cbn.
    destruct (@permute_ok y2 [0; 1; 3; 2]) as (z & Ez & Sz);
      [now rewrite Sy2|]. rewrite Sy2 in Sz. eauto. }
  step Ht.
  step (@matmul_ok y0 y5 _ _ _ _ _ Sy0 Sy5).
  set (aw := softmax_last _).
  assert (Saw : shape aw = [B; heads; T; T]) by (subst aw; cbn; exact Sy6).
  step (@matmul_ok aw y4 _ _ _ _ _ Saw Sy4).
  assert (Hp : exists y, permute y7 [0; 2; 1; 3] = OK y /\ shape y = [B; T; heads; E / heads]).
  { destruct (@permute_ok y7 [0; 2; 1; 3]) as (z & Ez & Sz);
      [now rewrite Sy7|]. rewrite Sy7 in Sz. eauto. }
  step Hp.
  assert (Hdiv : E = heads * (E / heads)) by (apply Nat.Div0.div_exact; exact Hmod).
  rewrite Hes.
  rewrite (@reshape_ok y8 _ [B; T; E]).
  - cbn [bind]. apply (@Linear_forward_ok E _ _ [B; T] Hc). reflexivity.
  - apply reshape_shape_infer_1of3; try assumption.
    rewrite Sy8. cbn [numel fold_right].
    remember (E / heads) as q. rewrite Hdiv. lia.
Qed.

Lemma from_sequence_ok E heads m o B h w :
  wf_MHSA E heads m -> shape o = [B; h * w; E] ->
  exists y, MultiHeadSelfAttention.from_sequence m o B h w = OK y
            /\ shape y = [B; E; h; w].
Proof.
  intros (_ & _ & _ & Hes & _) Ho.
  unfold MultiHeadSelfAttention.from_sequence. rewrite Hes.
  rewrite (@reshape_ok o _ [B; h; w; E]).
  - cbn [bind]. apply permute_ok. reflexivity.
  - apply reshape_shape_exact4. rewrite Ho. cbn [numel fold_right]. lia.
Qed.

Lemma MHSA_forward_ok E heads m x B h w :
  wf_MHSA E heads m -> shape x = [B; E; h; w] -> 0 < B -> 0 < h -> 0 < w ->
  exists y, MultiHeadSelfAttention.forward m x = OK y /\ shape y = [B; E; h; w].
Proof.
  intros Hwf Hx HB Hh Hw. unfold MultiHeadSelfAttention.forward.
  rewrite (to_sequence_ok x Hx HB Hh Hw). cbn [bind].
  step (@attend_ok E heads m (mkTensor [B; h * w; E] (data x)) B (h * w) Hwf eq_refl HB).
  eapply from_sequence_ok; eassumption.
Qed.

(** ** [Denoiser.forward]: success and result shape depend on the input's
       shape alone *)

Lemma conv_out_same n : 0 < n -> conv_out n 3 1 1 = n.
Proof. intros H. unfold conv_out. rewrite Nat.div_1_r. lia. Qed.

Lemma down_pos n : 0 < down n.
Proof. unfold down, conv_out. lia. Qed.

Lemma broadcast_dim_pos a b c :
  broadcast_dim a b = OK c -> 0 < a -> 0 < b -> 0 < c.
Proof.
  unfold broadcast_dim.
  destruct (a =? b); [|destruct (a =? 1); [|destruct (b =? 1)]];
    intros H; inversion H; subst; lia.
Qed.

Lemma broadcast_dim_err a b e : broadcast_dim a b = Err e -> e = RuntimeError.
Proof.
  unfold broadcast_dim.
  destruct (a =? b); [|destruct (a =? 1); [|destruct (b =? 1)]];
    intros H; inversion H; reflexivity.
Qed.

Lemma add_4 a b B F p q r s :
  shape a = [B; F; p; q] -> shape b = [B; F; r; s] ->
  match broadcast_dim p r, broadcast_dim q s with
  | OK u, OK v => exists y, add a b = OK y /\ shape y = [B; F; u; v]
  | _, _ => add a b = Err RuntimeError
  end.
Proof.
  intros Ha Hb.
  pose proof (binop_shape Rplus a b) as Hs. fold add in Hs.
  rewrite Ha, Hb, broadcast_shapes_4 in Hs.
  destruct (broadcast_dim p r), (broadcast_dim q s);
    first [now apply shape_of_OK | now apply shape_of_Err].
Qed.

Lemma conv_same_ok cin cout c x B H W :
  wf_Conv2d cin cout 3 1 1 c -> shape x = [B; cin; H; W] -> 0 < H -> 0 < W ->
  exists y, Conv2d_forward c x = OK y /\ shape y = [B; cout; H; W].
Proof.
  intros Hc Hx HH HW.
  destruct (@Conv2d_forward_ok _ _ _ _ _ c x B H W Hc Hx) as (y & E & S); try lia.
  rewrite !conv_out_same in S by assumption. eauto.
Qed.

Lemma conv_down_ok cin cout c x B H W :
  wf_Conv2d cin cout 3 2 1 c -> shape x = [B; cin; H; W] -> 0 < H -> 0 < W ->
  exists y, Conv2d_forward c x = OK y /\ shape y = [B; cout; down H; down W].
Proof.
  intros Hc Hx HH HW.
  destruct (@Conv2d_forward_ok _ _ _ _ _ c x B H W Hc Hx) as (y & E & S); try lia.
  eauto.
Qed.

Ltac any_err :=
  cbn;
  repeat match goal with
         | |- context [match ?m with OK _ => _ | Err _ => _ end] => destruct m; cbn
         end;
  reflexivity.

Ltac add_step HA :=
  repeat match type of HA with
         | context [broadcast_dim ?p ?r] => destruct (broadcast_dim p r) eqn:?
         end;
  [ step HA | rewrite HA; any_err .. ];
  repeat match goal with
         | E : broadcast_dim _ _ = OK _ |- _ => apply broadcast_dim_pos in E; [|lia|lia]
         end.

Theorem Denoiser_forward_shape F D x B H W :
  wf_Denoiser F D -> shape x = [B; 1; H; W] -> 0 < B -> 0 < H -> 0 < W ->
  shape_of (Denoiser.forward D x) = Denoiser_shape B H W.
Proof.
  intros (Hc1 & Hc2 & Hc3 & Hc4 & Hatt & Hu2 & Hu3 & Hu4 & Hout & Hres) Hx HB HH HW.
  unfold Denoiser.forward, Denoiser_shape, skip_dim.
  rewrite Hu2, Hu3, Hu4.
  pose proof (down_pos H) as P2. pose proof (down_pos W) as Q2.
  pose proof (down_pos (down H)) as P3. pose proof (down_pos (down W)) as Q3.
  pose proof (down_pos (down (down H))) as P4.
  pose proof (down_pos (down (down W))) as Q4.
  step (@conv_same_ok _ _ _ x B H W Hc1 Hx HH HW).
  set (x1 := tmap _ y).
  assert (S1 : shape x1 = [B; F; H; W]) by exact Sy.
  step (@conv_down_ok _ _ _ x1 B H W Hc2 S1 HH HW).
  set (x2 := tmap _ y0).
  assert (S2 : shape x2 = [B; F; down H; down W]) by exact Sy0.
  step (@conv_down_ok _ _ _ x2 B _ _ Hc3 S2 P2 Q2).
  set (x3 := tmap _ y1).
  assert (S3 : shape x3 = [B; F; down (down H); down (down W)]) by exact Sy1.
  step (@conv_down_ok _ _ _ x3 B _ _ Hc4 S3 P3 Q3).
  set (x4 := tmap _ y2).
  assert (S4 : shape x4 = [B; F; down (down (down H)); down (down (down W))])
    by exact Sy2.
  step (@MHSA_forward_ok F 4 _ x4 B _ _ Hatt S4 HB P4 Q4).
  step (@upsample_nearest_ok y3 _ _ _ _ Sy3).
  pose proof (@add_4 y4 x3 _ _ _ _ _ _ Sy4 S3) as A3. add_step A3.
  step (@upsample_nearest_ok y5 _ _ _ _ Sy5).
  pose proof (@add_4 y6 x2 _ _ _ _ _ _ Sy6 S2) as A2. add_step A2.
  step (@upsample_nearest_ok y7 _ _ _ _ Sy7).
  pose proof (@add_4 y8 x1 _ _ _ _ _ _ Sy8 S1) as A1. add_step A1.
  step (@conv_same_ok _ _ _ y9 B _ _ Hres Sy9 ltac:(assumption) ltac:(assumption)).
  destruct (@binop_same Rplus y10 y10 eq_refl) as (xx & Exx & Sxx).
  fold add in Exx. rewrite Exx. cbn [bind]. rewrite Sy10 in Sxx.
  step (@conv_same_ok _ _ _ xx B _ _ Hout Sxx ltac:(assumption) ltac:(assumption)).
  cbn. now rewrite Sy11.
Qed.

(** ** Which spatial sizes survive the three skip additions *)

Lemma down_spec n : 0 < n -> 2 * down n = n \/ 2 * down n = n + 1.
Proof.
  intros Hn. unfold down, conv_out.
  pose proof (Nat.div_mod_eq (n + 2 * 1 - 3) 2) as Hd.
  pose proof (Nat.mod_upper_bound (n + 2 * 1 - 3) 2) as Hm.
  lia.
Qed.

Ltac eqb_cases :=
  repeat match goal with
         | |- context [?a =? ?b] => destruct (Nat.eqb_spec a b)
         end.

Lemma skip_dim_mult8 a : 0 < a -> skip_dim (8 * a) = OK (8 * a).
Proof.
  intros Ha. unfold skip_dim.
  assert (H2 : down (8 * a) = 4 * a) by (pose proof (@down_spec (8 * a)); lia).
  assert (H3 : down (4 * a) = 2 * a) by (pose proof (@down_spec (4 * a)); lia).
  assert (H4 : down (2 * a) = a) by (pose proof (@down_spec (2 * a)); lia).
  rewrite H2, H3, H4. unfold broadcast_dim.
  rewrite Nat.eqb_refl. cbn [bind].
  replace (2 * (2 * a)) with (4 * a) by lia. rewrite Nat.eqb_refl. cbn [bind].
  replace (2 * (4 * a)) with (8 * a) by lia. now rewrite Nat.eqb_refl.
Qed.

Lemma skip_dim_1 : skip_dim 1 = OK 8.
Proof. reflexivity. Qed.

Lemma skip_dim_fail n :
  0 < n -> n <> 1 -> n mod 8 <> 0 -> skip_dim n = Err RuntimeError.
Proof.
  intros Hn H1 H8. unfold skip_dim.
  pose proof (@down_spec n Hn) as D2.
  pose proof (@down_spec (down n) (down_pos n)) as D3.
  pose proof (@down_spec (down (down n)) (down_pos (down n))) as D4.
  pose proof (down_pos (down (down n))) as P4.
  pose proof (Nat.div_mod_eq n 8) as Hd.
  pose proof (Nat.mod_upper_bound n 8) as Hm.
  remember (down n) as n2. remember (down n2) as n3. remember (down n3) as n4.
  remember (n mod 8) as r. remember (n / 8) as q.
  unfold broadcast_dim. eqb_cases; cbn [bind]; eqb_cases; cbn [bind]; eqb_cases;
    try reflexivity; exfalso; lia.
Qed.

Lemma Denoiser_shape_mult8 B a b :
  0 < a -> 0 < b -> Denoiser_shape B (8 * a) (8 * b) = OK [B; 1; 8 * a; 8 * b].
Proof. intros Ha Hb. unfold Denoiser_shape. now rewrite !skip_dim_mult8. Qed.

Lemma Denoiser_shape_fail B H W :
  0 < H -> 0 < W ->
  (H <> 1 /\ H mod 8 <> 0) \/ (W <> 1 /\ W mod 8 <> 0) ->
  Denoiser_shape B H W = Err RuntimeError.
Proof.
  intros HH HW [[H1 H8]|[W1 W8]]; unfold Denoiser_shape.
  - now rewrite (skip_dim_fail HH H1 H8).
  - rewrite (skip_dim_fail HW W1 W8). now destruct (skip_dim H).
Qed.

(** ** [GammaUnet]: colour conversion, split, and the whole forward pass *)

Lemma index_channel_ok x B C H W c :
  shape x = [B; C; H; W] -> c < C ->
  exists y, index_channel x c = OK y /\ shape y = [B; H; W].
Proof.
  intros Hx Hc. unfold index_channel, select, dim. rewrite Hx.
  change (length [B; C; H; W] <? 4) with false.
  change (1 <? length [B; C; H; W]) with true. cbn [nth].
  apply Nat.ltb_lt in Hc. rewrite Hc. eauto.
Qed.

Lemma index_channel_fail x B C H W c :
  shape x = [B; C; H; W] -> C <= c -> index_channel x c = Err IndexError.
Proof.
  intros Hx Hc. unfold index_channel, select, dim. rewrite Hx.
  change (length [B; C; H; W] <? 4) with false.
  change (1 <? length [B; C; H; W]) with true. cbn [nth].
  apply Nat.ltb_ge in Hc. now rewrite Hc.
Qed.

Lemma lincomb_ok f g c1 c2 c3 (r g0 b : Tensor) s :
  shape r = s -> shape g0 = s -> shape b = s ->
  exists y, (t <- binop f (mul_scalar c1 r) (mul_scalar c2 g0) ;;
             binop g t (mul_scalar c3 b)) = OK y /\ shape y = s.
Proof.
  intros Hr Hg Hb.
  destruct (@binop_same f (mul_scalar c1 r) (mul_scalar c2 g0)) as (t & Et & St);
    [cbn; congruence|].
  rewrite Et. cbn [bind].
  destruct (@binop_same g t (mul_scalar c3 b)) as (y & Ey & Sy);
    [cbn in *; congruence|].
  exists y. split; [exact Ey|]. cbn in *. congruence.
Qed.

Lemma cube_root_ok v : exists y, GammaUnet.cube_root v = OK y /\ shape y = shape v.
Proof.
  unfold GammaUnet.cube_root, mul. apply (@binop_same Rmult (tmap sign v)). reflexivity.
Qed.

Lemma stack3_ok (a b c : Tensor) B H W :
  shape a = [B; H; W] -> shape b = [B; H; W] -> shape c = [B; H; W] ->
  exists y, stack [a; b; c] 1 = OK y /\ shape y = [B; 3; H; W].
Proof.
  intros Ha Hb Hc. unfold stack. cbn [forallb].
  rewrite Hb, Hc, Ha, !shape_eqb_refl. cbn. eauto.
Qed.

Lemma _rgb_to_oklab_ok x B C H W :
  shape x = [B; C; H; W] -> 3 <= C ->
  exists y, GammaUnet._rgb_to_oklab x = OK y /\ shape y = [B; 3; H; W].
Proof.
  intros Hx HC. unfold GammaUnet._rgb_to_oklab.
  step (@index_channel_ok x B C H W 0 Hx ltac:(lia)).
  step (@index_channel_ok x B C H W 1 Hx ltac:(lia)).
  step (@index_channel_ok x B C H W 2 Hx ltac:(lia)).
  unfold add, sub.
  step (@lincomb_ok Rplus Rplus 0.4122214708 0.5363325363 0.0514459929 _ _ _ _ Sy Sy0 Sy1).
  step (@lincomb_ok Rplus Rplus 0.2119034982 0.6806995451 0.1073969566 _ _ _ _ Sy Sy0 Sy1).
  step (@lincomb_ok Rplus Rplus 0.0883024619 0.2817188376 0.6299787005 _ _ _ _ Sy Sy0 Sy1).
  step (cube_root_ok y2). step (cube_root_ok y3). step (cube_root_ok y4).
  rewrite Sy2 in Sy5. rewrite Sy3 in Sy6. rewrite Sy4 in Sy7.
  step (@lincomb_ok Rplus Rminus 0.2104542553 0.7936177850 0.0040720468 _ _ _ _ Sy5 Sy6 Sy7).
  step (@lincomb_ok Rminus Rplus 1.9779984951 2.4285922050 0.4505937099 _ _ _ _ Sy5 Sy6 Sy7).
  step (@lincomb_ok Rplus Rminus 0.0259040371 0.7827717662 0.8086757660 _ _ _ _ Sy5 Sy6 Sy7).
  now apply stack3_ok.
Qed.

Lemma _rgb_to_oklab_fail x B C H W :
  shape x = [B; C; H; W] -> C < 3 -> GammaUnet._rgb_to_oklab x = Err IndexError.
Proof.
  intros Hx HC. unfold GammaUnet._rgb_to_oklab.
  destruct C as [|[|C]].
  - now rewrite (@index_channel_fail x B 0 H W 0 Hx).
  - step (@index_channel_ok x B 1 H W 0 Hx ltac:(lia)).
    now rewrite (@index_channel_fail x B 1 H W 1 Hx).
  - step (@index_channel_ok x B (S (S C)) H W 0 Hx ltac:(lia)).
    step (@index_channel_ok x B (S (S C)) H W 1 Hx ltac:(lia)).
    now rewrite (@index_channel_fail x B (S (S C)) H W 2 Hx ltac:(lia)).
Qed.

Lemma split_channels t B H W :
  shape t = [B; 3; H; W] ->
  split t 1 1 = OK [narrow t 1 0 1; narrow t 1 1 1; narrow t 1 2 1].
Proof. intros Ht. unfold split, dim. rewrite Ht. reflexivity. Qed.

Lemma narrow_channel_shape t B C H W k :
  shape t = [B; C; H; W] -> shape (narrow t 1 k 1) = [B; 1; H; W].
Proof. intros Ht. unfold narrow. cbn. now rewrite Ht. Qed.

Lemma branches_ok P x B C H W :
  shape x = [B; C; H; W] -> 3 <= C ->
  exists ok,
    GammaUnet._rgb_to_oklab x = OK ok /\ shape ok = [B; 3; H; W]
    /\ GammaUnet.branches P x
       = OK (GammaUnet._gamma_correction (narrow ok 1 0 1) (GammaUnet.gamma P),
             GammaUnet._gamma_correction (narrow ok 1 1 1) (GammaUnet.gamma P),
             narrow ok 1 2 1).
Proof.
  intros Hx HC. destruct (_rgb_to_oklab_ok x Hx HC) as (ok & Eok & Sok).
  exists ok. repeat split; try assumption.
  unfold GammaUnet.branches. rewrite Eok. cbn [bind].
  now rewrite (split_channels ok Sok).
Qed.

Lemma cat3_ok (a b c : Tensor) B H W :
  shape a = [B; 1; H; W] -> shape b = [B; 1; H; W] -> shape c = [B; 1; H; W] ->
  exists y, cat [a; b; c] 1 = OK y /\ shape y = [B; 3; H; W].
Proof.
  intros Ha Hb Hc. unfold cat. cbn [forallb fold_right].
  rewrite Hb, Hc, Ha. cbn -[cat_get]. rewrite !Nat.eqb_refl. cbn -[cat_get]. eauto.
Qed.

Lemma GammaUnet_forward_ok F P x B C a b :
  wf_GammaUnet F P -> shape x = [B; C; 8 * a; 8 * b] ->
  3 <= C -> 0 < B -> 0 < a -> 0 < b ->
  exists out, GammaUnet.forward P x = OK out /\ shape out = [B; 3; 8 * a; 8 * b].
Proof.
  intros (Hy & Hcb & Hcr & Hfc & Hg) Hx HC HB Ha Hb.
  unfold GammaUnet.forward.
  destruct (@branches_ok P x B C _ _ Hx HC) as (ok & _ & Sok & Ebr).
  rewrite Ebr. cbn [bind].
  assert (Hden : forall D k, wf_Denoiser F D ->
            exists y, Denoiser.forward D
                        (GammaUnet._gamma_correction (narrow ok 1 k 1) (GammaUnet.gamma P))
                      = OK y /\ shape y = [B; 1; 8 * a; 8 * b]).
  { intros D k HD. apply shape_of_OK.
    rewrite (@Denoiser_forward_shape F D _ B (8 * a) (8 * b) HD); try lia.
    - now apply Denoiser_shape_mult8.
    - exact (narrow_channel_shape ok k Sok). }
  step (Hden _ 0 Hy). step (Hden _ 1 Hcb).
  assert (Hden3 : exists y, Denoiser.forward (GammaUnet.denoiser_cr P) (narrow ok 1 2 1)
                            = OK y /\ shape y = [B; 1; 8 * a; 8 * b]).
  { apply shape_of_OK.
    rewrite (@Denoiser_forward_shape F _ _ B (8 * a) (8 * b) Hcr); try lia.
    - now apply Denoiser_shape_mult8.
    - exact (narrow_channel_shape ok 2 Sok). }
  step Hden3.
  step (@cat3_ok y y0 y1 B _ _ Sy Sy0 Sy1).
  step (@conv_same_ok _ _ _ y2 B _ _ Hfc Sy2 ltac:(lia) ltac:(lia)).
  eexists. split; [reflexivity|]. exact Sy3.
Qed.

(** ** Ranges of the squashing functions and of the gamma curve

    The logistic function and the hyperbolic tangent are taken over the
    reals here, where they never reach their bounds; how a floating-point
    kernel rounds near the bounds is not part of this model. *)

Lemma bind_OK {A B : Type} (m : result A) (k : A -> result B) b :
  bind m k = OK b -> exists a, m = OK a /\ k a = OK b.
Proof. destruct m as [a|e]; cbn; intros H; [eauto | discriminate]. Qed.

Lemma sigmoid_range v : (0 < sigmoid v < 1)%R.
Proof.
  unfold sigmoid. pose proof (exp_pos (- v)) as He.
  assert (Hd : (0 < 1 + exp (- v))%R) by lra.
  split.
  - apply Rdiv_lt_0_compat; lra.
  - apply Rmult_lt_reg_r with (1 + exp (- v))%R; [exact Hd|].
    unfold Rdiv. rewrite Rmult_assoc, Rinv_l by lra. lra.
Qed.

Lemma tanh_range v : (-1 < tanh v < 1)%R.
Proof.
  unfold tanh, sinh, cosh.
  pose proof (exp_pos v) as Ha. pose proof (exp_pos (- v)) as Hb.
  set (a := exp v) in *. set (b := exp (- v)) in *.
  assert (Heq : ((a - b) / 2 / ((a + b) / 2) = (a - b) / (a + b))%R)
    by (field; lra).
  rewrite Heq.
  assert (Hd : (0 < a + b)%R) by lra.
  split.
  - apply Rmult_lt_reg_r with (a + b)%R; [exact Hd|].
    unfold Rdiv. rewrite Rmult_assoc, Rinv_l by lra. lra.
  - apply Rmult_lt_reg_r with (a + b)%R; [exact Hd|].
    unfold Rdiv. rewrite Rmult_assoc, Rinv_l by lra. lra.
Qed.

Lemma tmap_Forall (P : R -> Prop) f t :
  (forall v, P (f v)) -> Forall P (data (tmap f t)).
Proof. intros H. cbn. apply Forall_map. apply Forall_forall. intros; apply H. Qed.

Lemma GammaUnet_forward_range P x out :
  GammaUnet.forward P x = OK out ->
  Forall (fun v => (0 < v < 1)%R) (data out).
Proof.
  unfold GammaUnet.forward. intros H.
  apply bind_OK in H as ([[y cb] cr] & _ & H).
  repeat (apply bind_OK in H as (? & _ & H)).
  injection H as <-. apply tmap_Forall. exact sigmoid_range.
Qed.

Lemma Denoiser_forward_range D x out :
  Denoiser.forward D x = OK out ->
  Forall (fun v => (-1 < v < 1)%R) (data out).
Proof.
  unfold Denoiser.forward. intros H.
  repeat (apply bind_OK in H as (? & _ & H)).
  injection H as <-. apply tmap_Forall. exact tanh_range.
Qed.

Lemma clamp_range v : (0 <= Rmin (Rmax v 0) 1 <= 1)%R.
Proof.
  unfold Rmin, Rmax.
  destruct (Rle_dec v 0); destruct (Rle_dec _ 1); lra.
Qed.

Lemma clamp_idem v : Rmin (Rmax (Rmin (Rmax v 0) 1) 0) 1 = Rmin (Rmax v 0) 1.
Proof.
  pose proof (clamp_range v) as [H0 H1].
  rewrite Rmax_left by exact H0. now rewrite Rmin_left by exact H1.
Qed.

Lemma gamma_base_range x :
  Forall (fun v => (1e-8 <= v <= 1 + 1e-8)%R) (data (GammaUnet.gamma_base x)).
Proof.
  unfold GammaUnet.gamma_base, add_scalar, clamp. cbn. rewrite map_map.
  apply Forall_map, Forall_forall. intros v _.
  pose proof (clamp_range v). lra.
Qed.

Lemma gamma_base_positive x :
  Forall (fun v => (0 < v)%R) (data (GammaUnet.gamma_base x)).
Proof.
  eapply Forall_impl; [|apply gamma_base_range]. cbn. intros v Hv. lra.
Qed.

Lemma cube_root_base_positive x :
  Forall (fun v => (0 < v)%R) (data (GammaUnet.cube_root_base x)).
Proof.
  unfold GammaUnet.cube_root_base, add_scalar. cbn. rewrite map_map.
  apply Forall_map, Forall_forall. intros v _.
  pose proof (Rabs_pos v). lra.
Qed.

Lemma pow_positive_base v g : (0 < v)%R -> pow v g = Rpower v g.
Proof. intros H. unfold pow. now destruct (Rlt_dec 0 v). Qed.

Lemma gamma_correction_as_Rpower x g :
  data (GammaUnet._gamma_correction x g)
  = map (fun v => Rpower v g) (data (GammaUnet.gamma_base x)).
Proof.
  unfold GammaUnet._gamma_correction, pow_scalar. cbn [data tmap].
  apply map_ext_in. intros v Hv. apply pow_positive_base.
  pose proof (gamma_base_positive x) as Hp.
  rewrite Forall_forall in Hp. now apply Hp.
Qed.

Lemma gamma_base_clamp x :
  GammaUnet.gamma_base (clamp x 0 1) = GammaUnet.gamma_base x.
Proof.
  unfold GammaUnet.gamma_base, add_scalar, clamp, tmap. cbn [shape data].
  f_equal. rewrite !map_map. apply map_ext. intros v. now rewrite clamp_idem.
Qed.

Lemma map_pow_one d :
  Forall (fun v => (0 < v)%R) d -> map (fun v => pow v 1) d = d.
Proof.
  induction 1 as [|v d Hv _ IH]; cbn; [reflexivity|].
  now rewrite pow_positive_base, Rpower_1, IH by assumption.
Qed.

Lemma gamma_one_identity x :
  GammaUnet._gamma_correction x 1 = add_scalar (clamp x 0 1) 1e-8.
Proof.
  change (add_scalar (clamp x 0 1) 1e-8) with (GammaUnet.gamma_base x).
  unfold GammaUnet._gamma_correction, pow_scalar, tmap.
  rewrite (map_pow_one (gamma_base_positive x)).
  now destruct (GammaUnet.gamma_base x).
Qed.

(** ** The constructors give the parameter shapes *)

Lemma nn_Conv2d_wf cin cout k stride padding w c :
  nn_Conv2d (Z.of_nat cin) (Z.of_nat cout) (Z.of_nat k) stride padding w = OK c ->
  wf_Conv2d cin cout k stride padding c.
Proof.
  unfold nn_Conv2d. destruct (_ || _); [discriminate|].
  intros H. injection H as <-. unfold wf_Conv2d. cbn. now rewrite !Nat2Z.id.
Qed.

Lemma dense_wf n w l :
  MultiHeadSelfAttention.dense (Z.of_nat n) w = OK l -> wf_Linear n l /\ 0 < n.
Proof.
  unfold MultiHeadSelfAttention.dense.
  destruct (Z.ltb_spec (Z.of_nat n) 0); [discriminate|].
  destruct (Z.eqb_spec (Z.of_nat n) 0); [discriminate|].
  intros H'. injection H' as <-. unfold wf_Linear. cbn. rewrite !Nat2Z.id.
  repeat split; lia.
Qed.

Lemma MHSA_init_wf E heads d m :
  0 < heads ->
  MultiHeadSelfAttention.__init__ (Z.of_nat E) (Z.of_nat heads) d = OK m ->
  wf_MHSA E heads m.
Proof.
  intros Hh. unfold MultiHeadSelfAttention.__init__.
  destruct (Z.eqb_spec (Z.of_nat heads) 0); [discriminate|].
  destruct (Z.eqb_spec (Z.of_nat E mod Z.of_nat heads) 0) as [Hm|]; [|discriminate].
  cbn [negb]. intros H.
  apply bind_OK in H as (q & Hq & H). apply bind_OK in H as (k & Hk & H).
  apply bind_OK in H as (v & Hv & H). apply bind_OK in H as (c & Hc & H).
  injection H as <-.
  apply dense_wf in Hq as [Hq HE]. apply dense_wf in Hk as [Hk _].
  apply dense_wf in Hv as [Hv _]. apply dense_wf in Hc as [Hc _].
  unfold wf_MHSA. cbn.
  repeat split; try assumption;
    try (apply Hq); try (apply Hk); try (apply Hv); try (apply Hc).
  - rewrite <- Nat2Z.inj_mod in Hm. lia.
  - now rewrite Nat2Z.inj_div.
Qed.

Lemma Denoiser_init_wf F act d D :
  Denoiser.__init__ (Z.of_nat F) 3 act d = OK D -> wf_Denoiser F D.
Proof.
  unfold Denoiser.__init__. intros H.
  apply bind_OK in H as (c1 & H1 & H). apply bind_OK in H as (c2 & H2 & H).
  apply bind_OK in H as (c3 & H3 & H). apply bind_OK in H as (c4 & H4 & H).
  apply bind_OK in H as (att & Ha & H). apply bind_OK in H as (out & Ho & H).
  apply bind_OK in H as (res & Hr & H). injection H as <-.
  unfold wf_Denoiser.
  cbn [Denoiser.conv1 Denoiser.conv2 Denoiser.conv3 Denoiser.conv4
       Denoiser.bottleneck Denoiser.up2 Denoiser.up3 Denoiser.up4
       Denoiser.output_layer Denoiser.res_layer].
  split; [exact (@nn_Conv2d_wf 1 F 3 _ _ _ _ H1)|].
  split; [exact (@nn_Conv2d_wf F F 3 _ _ _ _ H2)|].
  split; [exact (@nn_Conv2d_wf F F 3 _ _ _ _ H3)|].
  split; [exact (@nn_Conv2d_wf F F 3 _ _ _ _ H4)|].
  split; [apply (@MHSA_init_wf F 4 (Denoiser.draw_bottleneck d)); [lia | exact Ha]|].
  do 3 (split; [reflexivity|]).
  split; [exact (@nn_Conv2d_wf 1 1 3 _ _ _ _ Ho)|].
  exact (@nn_Conv2d_wf F 1 3 _ _ _ _ Hr).
Qed.

Lemma GammaUnet_init_wf F d P :
  GammaUnet.__init__ (Z.of_nat F) d = OK P -> wf_GammaUnet F P.
Proof.
  unfold GammaUnet.__init__. intros H.
  apply bind_OK in H as (dy & Hy & H). apply bind_OK in H as (dcb & Hcb & H).
  apply bind_OK in H as (dcr & Hcr & H). apply bind_OK in H as (fc & Hfc & H).
  injection H as <-. unfold wf_GammaUnet.
  cbn [GammaUnet.denoiser_y GammaUnet.denoiser_cb GammaUnet.denoiser_cr
       GammaUnet.final_conv GammaUnet.gamma].
  split; [exact (Denoiser_init_wf _ _ _ Hy)|].
  split; [exact (Denoiser_init_wf _ _ _ Hcb)|].
  split; [exact (Denoiser_init_wf _ _ _ Hcr)|].
  split; [exact (@nn_Conv2d_wf 3 3 3 1 1 _ _ Hfc)|].
  reflexivity.
Qed.

Lemma example_model_init : GammaUnet.__init__ 32 model_draws = OK example_model.
Proof. reflexivity. Qed.

Lemma example_denoiser_init :
  Denoiser.__init__ 32 3 relu denoiser_draws = OK example_denoiser.
Proof. reflexivity. Qed.

Lemma example_model_wf : wf_GammaUnet 32 example_model.
Proof. apply (@GammaUnet_init_wf 32 model_draws). exact example_model_init. Qed.

Lemma example_denoiser_wf : wf_Denoiser 32 example_denoiser.
Proof. apply (@Denoiser_init_wf 32 relu denoiser_draws). exact example_denoiser_init. Qed.

Lemma tiny_attention_init :
  MultiHeadSelfAttention.__init__ 2 2 attention_draws = OK tiny_attention.
Proof. reflexivity. Qed.

(** ** Values: channels after the split, tokens of the attention *)

Lemma in_range_4 B C H W b c i j :
  b < B -> c < C -> i < H -> j < W -> in_range [B; C; H; W] [b; c; i; j].
Proof. intros. repeat constructor; assumption. Qed.

Lemma narrow_channel_get t B C H W k b i j :
  shape t = [B; C; H; W] -> b < B -> i < H -> j < W ->
  get (narrow t 1 k 1) [b; 0; i; j] = get t [b; k; i; j].
Proof.
  intros Ht Hb Hi Hj. unfold narrow. rewrite get_tabulate.
  - reflexivity.
  - rewrite Ht. apply in_range_4; try assumption. lia.
Qed.

Lemma gamma_correction_get t g idx :
  wf_tensor t -> in_range (shape t) idx ->
  get (GammaUnet._gamma_correction t g) idx
  = pow (Rmin (Rmax (get t idx) 0) 1 + 1e-8) g.
Proof.
  intros Hw Hr.
  unfold GammaUnet._gamma_correction, GammaUnet.gamma_base, pow_scalar, add_scalar, clamp.
  rewrite !get_tmap; auto using tmap_wf.
Qed.

Lemma sequence_flat_index x B F h w b t f :
  shape x = [B; F; h; w] ->
  get (mkTensor [B; h * w; F] (data x)) [b; t; f]
  = nth (b * (h * w * F) + t * F + f) (data x) 0%R.
Proof. intros Hx. unfold get. cbn. f_equal. lia. Qed.

Lemma feature_flat_index x B F h w b c i j :
  shape x = [B; F; h; w] ->
  get x [b; c; i; j] = nth (b * (F * h * w) + c * (h * w) + i * w + j) (data x) 0%R.
Proof. intros Hx. unfold get. rewrite Hx. cbn. f_equal. lia. Qed.

(** What the first step of [forward] does: token [t], feature [f] of the
    sequence is the element of the feature map whose offset inside its
    batch entry is [t * F + f], read in channel-major order. *)
Lemma to_sequence_layout x B F h w b c i j :
  shape x = [B; F; h; w] -> 0 < F ->
  let k := c * (h * w) + i * w + j in
  get x [b; c; i; j] = get (mkTensor [B; h * w; F] (data x)) [b; k / F; k mod F].
Proof.
  intros Hx HF k.
  rewrite (sequence_flat_index x _ _ _ Hx), (feature_flat_index x _ _ _ _ Hx).
  f_equal. pose proof (Nat.div_mod_eq k F). subst k. nia.
Qed.

(** What the last step does: feature [f] of token [i * w + j] lands at
    channel [f], row [i], column [j]. *)
Lemma from_sequence_get E heads m o B h w b f i j :
  wf_MHSA E heads m -> shape o = [B; h * w; E] ->
  b < B -> f < E -> i < h -> j < w ->
  exists y, MultiHeadSelfAttention.from_sequence m o B h w = OK y
            /\ shape y = [B; E; h; w]
            /\ get y [b; f; i; j] = get o [b; i * w + j; f].
Proof.
  intros Hwf Ho Hb Hf Hi Hj.
  pose proof Hwf as (_ & _ & _ & Hes & _).
  unfold MultiHeadSelfAttention.from_sequence. rewrite Hes.
  rewrite (@reshape_ok o _ [B; h; w; E]).
  - cbn [bind]. unfold permute. cbn [shape length]. 
    change (is_perm [0; 3; 1; 2] 4) with true. cbv iota.
    eexists. split; [reflexivity|]. split; [reflexivity|].
    rewrite get_tabulate by (apply in_range_4; assumption).
    unfold get. rewrite Ho. cbn. f_equal. lia.
  - apply reshape_shape_exact4. rewrite Ho. cbn [numel fold_right]. lia.
Qed.

(** ** Construction of the attention block *)

Lemma MHSA_init_zero_heads E d :
  MultiHeadSelfAttention.__init__ E 0 d = Err ZeroDivisionError.
Proof. reflexivity. Qed.

Lemma MHSA_init_not_divisible E h d :
  h <> 0%Z -> (E mod h)%Z <> 0%Z ->
  MultiHeadSelfAttention.__init__ E h d = Err AssertionError.
Proof.
  intros Hh Hm. unfold MultiHeadSelfAttention.__init__.
  destruct (Z.eqb_spec h 0); [contradiction|].
  destruct (Z.eqb_spec (E mod h) 0); [contradiction|]. reflexivity.
Qed.

Lemma MHSA_init_32_4 d :
  exists m, MultiHeadSelfAttention.__init__ 32 4 d = OK m
            /\ MultiHeadSelfAttention.embed_size m = 32%Z
            /\ MultiHeadSelfAttention.num_heads m = 4%Z
            /\ MultiHeadSelfAttention.head_dim m = 8%Z
            /\ wf_MHSA 32 4 m.
Proof.
  eexists. split; [reflexivity|]. repeat split; cbn; lia.
Qed.

(** * The claims *)

Ltac wf_example :=
  unfold wf_GammaUnet, wf_Denoiser, wf_MHSA, wf_Conv2d, wf_Linear;
  repeat split; try reflexivity; try lia.

(** C1.  The first step of [MultiHeadSelfAttention.forward] is a plain
    [reshape]: it keeps the channel-major element order, so a token is not
    the channel vector of a spatial position.  On the map with channels
    [1 2] and [3 4] over a 1x2 grid the sequence has the right shape
    [(1, 2, 2)], but token 0 is [(1, 2)] while the channel vector at
    position 0 is [(1, 3)]; feeding the sequence to the last step does not
    give the map back. *)
Theorem to_sequence_scrambles_channels :
  exists xs back,
    MultiHeadSelfAttention.to_sequence two_channel_map = OK (xs, (1, 1, 2))
    /\ shape xs = [1; 2; 2]
    /\ get xs [0; 0; 0] = 1%R /\ get xs [0; 0; 1] = 2%R
    /\ get two_channel_map [0; 0; 0; 0] = 1%R
    /\ get two_channel_map [0; 1; 0; 0] = 3%R
    /\ get xs [0; 0; 1] <> get two_channel_map [0; 1; 0; 0]
    /\ MultiHeadSelfAttention.from_sequence tiny_attention xs 1 1 2 = OK back
    /\ shape back = shape two_channel_map
    /\ get back [0; 1; 0; 0] = 2%R.
Proof.
  eexists. eexists.
  split; [reflexivity|]. split; [reflexivity|].
  split; [reflexivity|]. split; [reflexivity|].
  split; [reflexivity|]. split; [reflexivity|].
  split; [cbn; lra|].
  split; [reflexivity|]. split; reflexivity.
Qed.

(** C3.  For an input of shape [(B, 3, H, W)] with [H] and [W] positive
    multiples of 8 (and a non-empty batch), [GammaUnet.forward] returns an
    output of exactly the input's shape. *)
Theorem shape_preservation F P x B H W :
  wf_GammaUnet F P -> shape x = [B; 3; H; W] ->
  0 < B -> 0 < H -> 0 < W -> H mod 8 = 0 -> W mod 8 = 0 ->
  exists out, GammaUnet.forward P x = OK out /\ shape out = shape x.
Proof.
  intros HP Hx HB HH HW H8 W8.
  apply Nat.Div0.div_exact in H8, W8.
  assert (0 < H / 8) by lia. assert (0 < W / 8) by lia.
  rewrite Hx. rewrite H8, W8 in Hx |- *.
  apply (@GammaUnet_forward_ok F P x B 3 _ _ HP Hx); lia.
Qed.

Lemma shape_preservation_witness :
  exists out, GammaUnet.forward example_model grey_image_64 = OK out
              /\ shape out = shape grey_image_64.
Proof.
  apply (@shape_preservation 32 example_model grey_image_64 1 64 64);
    [wf_example | reflexivity | lia | lia | lia | reflexivity | reflexivity].
Defined.

(** C5.  [MultiHeadSelfAttention.__init__] fails, without building a
    module, whenever [embed_size] is not divisible by [num_heads] (with an
    [AssertionError], unless [num_heads] is 0 and the remainder itself
    raises); it fails on (33, 4) and succeeds on (32, 4). *)
Theorem head_count_invariant (E h : Z) (d : MultiHeadSelfAttention.draws) :
  ((E mod h)%Z <> 0%Z ->
     exists e, MultiHeadSelfAttention.__init__ E h d = Err e
               /\ (h <> 0%Z -> e = AssertionError))
  /\ MultiHeadSelfAttention.__init__ 33 4 d = Err AssertionError
  /\ exists m, MultiHeadSelfAttention.__init__ 32 4 d = OK m
               /\ MultiHeadSelfAttention.head_dim m = 8%Z.
Proof.
  split; [|split].
  - intros Hm. destruct (Z.eq_dec h 0) as [->|Hh].
    + exists ZeroDivisionError. split; [apply MHSA_init_zero_heads | congruence].
    + exists AssertionError. split; [now apply MHSA_init_not_divisible | reflexivity].
  - apply MHSA_init_not_divisible; [lia | discriminate].
  - destruct (MHSA_init_32_4 d) as (m & E1 & _ & _ & E2 & _). eauto.
Qed.

Lemma head_count_invariant_witness :
  exists e, MultiHeadSelfAttention.__init__ 33 4 attention_draws = Err e
            /\ (4%Z <> 0%Z -> e = AssertionError).
Proof.
  apply (proj1 (head_count_invariant 33 4 attention_draws)). discriminate.
Defined.

(** C6.  In [GammaUnet.forward] the tensors handed to the three denoisers
    are: channel 0 and channel 1 of the converted image after gamma
    correction with gamma 0.4, and channel 2 of the converted image exactly
    as the converter produced it, element for element. *)
Theorem asymmetric_gamma F P x B C H W :
  wf_GammaUnet F P -> shape x = [B; C; H; W] -> 3 <= C ->
  exists ok y cb cr,
    GammaUnet._rgb_to_oklab x = OK ok
    /\ GammaUnet.branches P x = OK (y, cb, cr)
    /\ y = GammaUnet._gamma_correction (narrow ok 1 0 1) 0.4
    /\ cb = GammaUnet._gamma_correction (narrow ok 1 1 1) 0.4
    /\ cr = narrow ok 1 2 1
    /\ (forall b i j, b < B -> i < H -> j < W ->
          get y [b; 0; i; j] = pow (Rmin (Rmax (get ok [b; 0; i; j]) 0) 1 + 1e-8) 0.4
          /\ get cb [b; 0; i; j] = pow (Rmin (Rmax (get ok [b; 1; i; j]) 0) 1 + 1e-8) 0.4
          /\ get cr [b; 0; i; j] = get ok [b; 2; i; j])
    /\ GammaUnet.forward P x =
         (y_denoised <- Denoiser.forward (GammaUnet.denoiser_y P) y ;;
          cb_denoised <- Denoiser.forward (GammaUnet.denoiser_cb P) cb ;;
          cr_denoised <- Denoiser.forward (GammaUnet.denoiser_cr P) cr ;;
          combined <- cat [y_denoised; cb_denoised; cr_denoised] 1 ;;
          output <- Conv2d_forward (GammaUnet.final_conv P) combined ;;
          OK (tmap sigmoid output)).
Proof.
  intros (_ & _ & _ & _ & Hg) Hx HC.
  destruct (@branches_ok P x B C H W Hx HC) as (ok & Eok & Sok & Ebr).
  rewrite Hg in Ebr.
  exists ok. do 3 eexists.
  split; [exact Eok|]. split; [exact Ebr|].
  split; [reflexivity|]. split; [reflexivity|]. split; [reflexivity|].
  split.
  - intros b i j Hb Hi Hj.
    assert (Hr : forall k, in_range (shape (narrow ok 1 k 1)) [b; 0; i; j]).
    { intros k. rewrite (narrow_channel_shape ok k Sok).
      apply in_range_4; try assumption. lia. }
    rewrite !gamma_correction_get by (apply tabulate_wf || apply Hr).
    rewrite !(narrow_channel_get ok _ Sok) by assumption.
    repeat split.
  - unfold GammaUnet.forward. rewrite Ebr. reflexivity.
Qed.

Lemma asymmetric_gamma_witness :
  exists ok y cb cr,
    GammaUnet._rgb_to_oklab grey_image_64 = OK ok
    /\ GammaUnet.branches example_model grey_image_64 = OK (y, cb, cr)
    /\ y = GammaUnet._gamma_correction (narrow ok 1 0 1) 0.4
    /\ cb = GammaUnet._gamma_correction (narrow ok 1 1 1) 0.4
    /\ cr = narrow ok 1 2 1.
Proof.
  destruct (@asymmetric_gamma 32 example_model grey_image_64 1 3 64 64)
    as (ok & y & cb & cr & H1 & H2 & H3 & H4 & H5 & _);
    [wf_example | reflexivity | lia | ].
  exists ok, y, cb, cr. repeat split; assumption.
Defined.

(** C7.  With gamma = 1 the gamma correction returns exactly
    [clamp(x, 0, 1) + 1e-8], for every tensor [x]. *)
Theorem gamma_identity x :
  GammaUnet._gamma_correction x 1 = add_scalar (clamp x 0 1) 1e-8.
Proof. apply gamma_one_identity. Qed.

(** C8 (as stated it fails): a spatial size of 1 is not a multiple of 8,
    yet the denoiser returns on a single pixel; every skip addition
    broadcasts the encoder's 1x1 map and the output is 8x8. *)
Lemma single_pixel_is_broadcast :
  shape channel_1x1 = [1; 1; 1; 1] /\ 1 mod 8 <> 0
  /\ exists out, Denoiser.forward example_denoiser channel_1x1 = OK out
                 /\ shape out = [1; 1; 8; 8].
Proof.
  split; [reflexivity|]. split; [discriminate|].
  apply shape_of_OK.
  rewrite (@Denoiser_forward_shape 32 example_denoiser channel_1x1 1 1 1);
    [reflexivity | exact example_denoiser_wf | reflexivity | lia | lia | lia].
Qed.

(** C8 (amended).  On a single-channel input with positive spatial sizes,
    one of which is neither 1 nor a multiple of 8, [Denoiser.forward] fails
    with the shape error of a skip-connection addition.  The 10x10 channel
    is such an input. *)
Theorem misaligned_skip_fails F D x B H W :
  wf_Denoiser F D -> shape x = [B; 1; H; W] -> 0 < B -> 0 < H -> 0 < W ->
  (H <> 1 /\ H mod 8 <> 0) \/ (W <> 1 /\ W mod 8 <> 0) ->
  Denoiser.forward D x = Err RuntimeError.
Proof.
  intros HD Hx HB HH HW Hbad. apply shape_of_Err.
  rewrite (@Denoiser_forward_shape F D x B H W HD Hx HB HH HW).
  now apply Denoiser_shape_fail.
Qed.

Lemma misaligned_skip_fails_witness :
  Denoiser.forward example_denoiser channel_10x10 = Err RuntimeError.
Proof.
  apply (@misaligned_skip_fails 32 example_denoiser channel_10x10 1 10 10);
    [wf_example | reflexivity | lia | lia | lia | ].
  left. split; [lia | discriminate].
Defined.

(** C9 (as stated it fails): an input with four channels is accepted; the
    converter reads channels 0, 1, 2 and the result has three channels. *)
Lemma four_channels_accepted :
  shape four_channel_image = [1; 4; 8; 8]
  /\ exists out, GammaUnet.forward example_model four_channel_image = OK out
                 /\ shape out = [1; 3; 8; 8].
Proof.
  split; [reflexivity|].
  apply (@GammaUnet_forward_ok 32 example_model four_channel_image 1 4 1 1);
    [exact example_model_wf | reflexivity | lia | lia | lia | lia].
Qed.

(** C9 (amended).  [GammaUnet.forward] fails at call time, with an
    [IndexError] from the channel slicing, on every input with fewer than
    three channels; an input with three or more channels (and valid batch
    and spatial sizes) is accepted and gives a three-channel output. *)
Theorem channel_count_behaviour F P x B C H W :
  shape x = [B; C; H; W] ->
  (C < 3 -> GammaUnet.forward P x = Err IndexError)
  /\ (3 <= C -> wf_GammaUnet F P -> 0 < B -> 0 < H -> 0 < W ->
      H mod 8 = 0 -> W mod 8 = 0 ->
      exists out, GammaUnet.forward P x = OK out /\ shape out = [B; 3; H; W]).
Proof.
  intros Hx. split.
  - intros HC. unfold GammaUnet.forward, GammaUnet.branches.
    now rewrite (@_rgb_to_oklab_fail x B C H W Hx HC).
  - intros HC HP HB HH HW H8 W8.
    apply Nat.Div0.div_exact in H8, W8.
    assert (0 < H / 8) by lia. assert (0 < W / 8) by lia.
    rewrite H8, W8 in Hx |- *.
    apply (@GammaUnet_forward_ok F P x B C _ _ HP Hx); lia.
Qed.

Lemma channel_count_behaviour_witness :
  GammaUnet.forward example_model two_channel_image = Err IndexError
  /\ exists out, GammaUnet.forward example_model grey_image_64 = OK out
                 /\ shape out = [1; 3; 64; 64].
Proof.
  split.
  - apply (proj1 (@channel_count_behaviour 32 example_model two_channel_image
                    1 2 8 8 eq_refl)). lia.
  - apply (proj2 (@channel_count_behaviour 32 example_model grey_image_64
                    1 3 64 64 eq_refl));
      [lia | wf_example | lia | lia | lia | reflexivity | reflexivity].
Defined.

(** C10.  For every real tensor [x], gamma correction of [x] equals gamma
    correction of [clamp(x, 0, 1)]; every base handed to the power lies in
    [[1e-8, 1 + 1e-8]], so the power is the real power of a positive number;
    and for gamma = 0.4 every output element lies in
    [[(1e-8)^0.4, (1 + 1e-8)^0.4]] and is positive. *)
Theorem gamma_correction_safe x g :
  GammaUnet._gamma_correction x g = GammaUnet._gamma_correction (clamp x 0 1) g
  /\ Forall (fun v => (1e-8 <= v <= 1 + 1e-8)%R) (data (GammaUnet.gamma_base x))
  /\ data (GammaUnet._gamma_correction x g)
     = map (fun v => Rpower v g) (data (GammaUnet.gamma_base x))
  /\ Forall (fun v => (Rpower 1e-8 0.4 <= v <= Rpower (1 + 1e-8) 0.4 /\ 0 < v)%R)
            (data (GammaUnet._gamma_correction x 0.4)).
Proof.
  split; [|split; [|split]].
  - unfold GammaUnet._gamma_correction. now rewrite gamma_base_clamp.
  - apply gamma_base_range.
  - apply gamma_correction_as_Rpower.
  - rewrite gamma_correction_as_Rpower. apply Forall_map.
    eapply Forall_impl; [|apply gamma_base_range]. cbn. intros v [Hlo Hhi].
    split; [split|].
    + apply Rle_Rpower_l; lra.
    + apply Rle_Rpower_l; lra.
    + unfold Rpower. apply exp_pos.
Qed.

(** * Further properties of the code *)

(** ** More index arithmetic *)

Lemma unravel_in_range s : forall k, k < numel s -> in_range s (unravel s k).
Proof.
  induction s as [|d s IH]; intros k Hk; cbn.
  - constructor.
  - cbn in Hk. fold (numel s) in Hk.
    assert (Hn : numel s <> 0) by (intros E; rewrite E in Hk; lia).
    constructor.
    + apply Nat.Div0.div_lt_upper_bound. lia.
    + apply IH. apply Nat.mod_upper_bound, Hn.
Qed.

Lemma tabulate_ext s f g :
  (forall idx, in_range s idx -> f idx = g idx) -> tabulate s f = tabulate s g.
Proof.
  intros H. unfold tabulate. f_equal. apply map_ext_in.
  intros k Hk. apply in_seq in Hk. apply H, unravel_in_range. lia.
Qed.

Lemma in_range_length s idx : in_range s idx -> length idx = length s.
Proof. unfold in_range. induction 1; cbn; congruence. Qed.

Lemma in_range_3_inv B H W idx :
  in_range [B; H; W] idx -> exists b i j, idx = [b; i; j] /\ b < B /\ i < H /\ j < W.
Proof.
  intros Hr. inversion Hr as [|b ? idx1 ? Hb H1]; subst.
  inversion H1 as [|i ? idx2 ? Hi H2]; subst.
  inversion H2 as [|j ? idx3 ? Hj H3]; subst.
  inversion H3; subst. eauto 8.
Qed.

Lemma bcast_index_id s : forall idx, in_range s idx -> bcast_index s idx = idx.
Proof.
  intros idx Hr. unfold bcast_index.
  rewrite (in_range_length Hr), Nat.sub_diag. cbn [skipn].
  unfold in_range in Hr. induction Hr as [|i d idx s Hi _ IH]; cbn; [reflexivity|].
  f_equal; [|exact IH].
  destruct (Nat.eqb_spec d 1); lia.
Qed.

(** ** Pointwise descriptions of the operations *)

Lemma pointwise_tabulate s f : pointwise s (tabulate s f) f.
Proof.
  split; [reflexivity|]. split; [apply tabulate_wf|].
  intros idx Hr. now apply get_tabulate.
Qed.

Lemma pointwise_tmap s t f h :
  pointwise s t f -> pointwise s (tmap h t) (fun idx => h (f idx)).
Proof.
  intros (Hs & Hw & Hg). split; [exact Hs|]. split; [now apply tmap_wf|].
  intros idx Hr. rewrite get_tmap by (rewrite ?Hs; assumption).
  now rewrite Hg.
Qed.

Lemma pointwise_binop s a b fa fb op :
  pointwise s a fa -> pointwise s b fb ->
  exists y, binop op a b = OK y /\ pointwise s y (fun idx => op (fa idx) (fb idx)).
Proof.
  intros (Sa & Wa & Ga) (Sb & Wb & Gb).
  unfold binop. rewrite Sa, Sb, broadcast_shapes_refl. cbn [bind].
  eexists. split; [reflexivity|].
  split; [reflexivity|]. split; [apply tabulate_wf|].
  intros idx Hr. rewrite get_tabulate by assumption.
  now rewrite bcast_index_id, Ga, Gb by assumption.
Qed.

Lemma pointwise_index_channel x B C H W c :
  shape x = [B; C; H; W] -> c < C ->
  exists y, index_channel x c = OK y
            /\ pointwise [B; H; W] y (fun idx => get x (insert_at 1 c idx)).
Proof.
  intros Hx Hc. unfold index_channel, select, dim. rewrite Hx.
  change (length [B; C; H; W] <? 4) with false.
  change (1 <? length [B; C; H; W]) with true. cbn [nth].
  apply Nat.ltb_lt in Hc. rewrite Hc.
  eexists. split; [reflexivity|]. apply pointwise_tabulate.
Qed.

Lemma pointwise_stack3 (a b c : Tensor) fa fb fc B H W :
  pointwise [B; H; W] a fa -> pointwise [B; H; W] b fb -> pointwise [B; H; W] c fc ->
  exists y, stack [a; b; c] 1 = OK y
            /\ shape y = [B; 3; H; W] /\ wf_tensor y
            /\ forall n i j, n < B -> i < H -> j < W ->
                 get y [n; 0; i; j] = fa [n; i; j]
                 /\ get y [n; 1; i; j] = fb [n; i; j]
                 /\ get y [n; 2; i; j] = fc [n; i; j].
Proof.
  intros (Sa & Wa & Ga) (Sb & Wb & Gb) (Sc & Wc & Gc).
  unfold stack. cbn [forallb]. rewrite Sb, Sc, Sa, !shape_eqb_refl.
  cbn [andb length Nat.leb].
  eexists. split; [reflexivity|]. split; [reflexivity|]. split; [apply tabulate_wf|].
  intros n i j Hn Hi Hj.
  assert (Hr : in_range [B; H; W] [n; i; j]) by (repeat constructor; assumption).
  repeat split.
  - rewrite get_tabulate by (apply in_range_4; try assumption; lia).
    cbn. now apply Ga.
  - rewrite get_tabulate by (apply in_range_4; try assumption; lia).
    cbn. now apply Gb.
  - rewrite get_tabulate by (apply in_range_4; try assumption; lia).
    cbn. now apply Gc.
Qed.

(** ** The colour conversions, pixel by pixel *)

Lemma pointwise_lincomb s op1 op2 c1 c2 c3 r g b fr fg fb :
  pointwise s r fr -> pointwise s g fg -> pointwise s b fb ->
  exists y, (t <- binop op1 (mul_scalar c1 r) (mul_scalar c2 g) ;;
             binop op2 t (mul_scalar c3 b)) = OK y
            /\ pointwise s y
                 (fun idx => op2 (op1 (c1 * fr idx) (c2 * fg idx)) (c3 * fb idx))%R.
Proof.
  intros Hr Hg Hb.
  destruct (@pointwise_binop s _ _ _ _ op1
              (pointwise_tmap (fun v => (c1 * v)%R) Hr)
              (pointwise_tmap (fun v => (c2 * v)%R) Hg)) as (t & Et & Pt).
  unfold mul_scalar. rewrite Et. cbn [bind].
  exact (@pointwise_binop s _ _ _ _ op2 Pt (pointwise_tmap (fun v => (c3 * v)%R) Hb)).
Qed.

Lemma pointwise_cube_root s v fv :
  pointwise s v fv ->
  exists y, GammaUnet.cube_root v = OK y
            /\ pointwise s y (fun idx => cbrt_eps (fv idx)).
Proof.
  intros Hv. unfold GammaUnet.cube_root, GammaUnet.cube_root_base, mul,
    pow_scalar, add_scalar.
  destruct (@pointwise_binop s _ _ _ _ Rmult
              (pointwise_tmap sign Hv)
              (pointwise_tmap (fun v => pow v (1 / 3))
                 (pointwise_tmap (fun v => (v + 1e-6)%R) (pointwise_tmap Rabs Hv))))
    as (y & Ey & Py).
  exists y. split; [exact Ey|]. exact Py.
Qed.

Ltac pstep H :=
  let y := fresh "y" in
  let E := fresh "E" y in
  let P := fresh "P" y in
  destruct H as (y & E & P); rewrite E; cbn [bind].

Lemma _rgb_to_oklab_pixels x B C H W :
  shape x = [B; C; H; W] -> 3 <= C ->
  exists ok, GammaUnet._rgb_to_oklab x = OK ok
             /\ shape ok = [B; 3; H; W] /\ wf_tensor ok
             /\ forall n i j, n < B -> i < H -> j < W ->
                  (get ok [n; 0; i; j], get ok [n; 1; i; j], get ok [n; 2; i; j])
                  = oklab_pixel (get x [n; 0; i; j]) (get x [n; 1; i; j])
                                (get x [n; 2; i; j]).
Proof.
  intros Hx HC. unfold GammaUnet._rgb_to_oklab.
  pstep (@pointwise_index_channel x B C H W 0 Hx ltac:(lia)).
  pstep (@pointwise_index_channel x B C H W 1 Hx ltac:(lia)).
  pstep (@pointwise_index_channel x B C H W 2 Hx ltac:(lia)).
  unfold add, sub.
  pstep (@pointwise_lincomb _ Rplus Rplus 0.4122214708 0.5363325363 0.0514459929
           _ _ _ _ _ _ Py Py0 Py1).
  pstep (@pointwise_lincomb _ Rplus Rplus 0.2119034982 0.6806995451 0.1073969566
           _ _ _ _ _ _ Py Py0 Py1).
  pstep (@pointwise_lincomb _ Rplus Rplus 0.0883024619 0.2817188376 0.6299787005
           _ _ _ _ _ _ Py Py0 Py1).
  pstep (pointwise_cube_root Py2).
  pstep (pointwise_cube_root Py3).
  pstep (pointwise_cube_root Py4).
  pstep (@pointwise_lincomb _ Rplus Rminus 0.2104542553 0.7936177850 0.0040720468
           _ _ _ _ _ _ Py5 Py6 Py7).
  pstep (@pointwise_lincomb _ Rminus Rplus 1.9779984951 2.4285922050 0.4505937099
           _ _ _ _ _ _ Py5 Py6 Py7).
  pstep (@pointwise_lincomb _ Rplus Rminus 0.0259040371 0.7827717662 0.8086757660
           _ _ _ _ _ _ Py5 Py6 Py7).
  destruct (pointwise_stack3 Py8 Py9 Py10) as (ok & Eok & Sok & Wok & Gok).
  exists ok. split; [exact Eok|]. split; [exact Sok|]. split; [exact Wok|].
  intros n i j Hn Hi Hj.
  destruct (Gok n i j Hn Hi Hj) as (G0 & G1 & G2).
  rewrite G0, G1, G2. reflexivity.
Qed.


(** ** The sign-preserving cube root *)

Lemma sign_pos v : (0 < v)%R -> sign v = 1%R.
Proof. intros H. unfold sign. destruct (Rlt_dec 0 v); [reflexivity | contradiction]. Qed.

Lemma sign_neg v : (v < 0)%R -> sign v = (-1)%R.
Proof.
  intros H. unfold sign. destruct (Rlt_dec 0 v); [lra|].
  destruct (Rlt_dec v 0); [reflexivity | contradiction].
Qed.

Lemma sign_zero : sign 0 = 0%R.
Proof.
  unfold sign. destruct (Rlt_dec 0 0); [lra|]. destruct (Rlt_dec 0 0); [lra | reflexivity].
Qed.

Lemma cbrt_eps_0 : cbrt_eps 0 = 0%R.
Proof. unfold cbrt_eps. rewrite sign_zero. lra. Qed.

(** [(1e-6)^(1/3)] is [0.01]. *)
Lemma Rpower_eps_third : Rpower 1e-6 (1 / 3) = 0.01%R.
Proof.
  assert (H3 : Rpower 0.01 (INR 3) = 1e-6%R).
  { rewrite Rpower_pow by lra. lra. }
  rewrite <- H3, Rpower_mult.
  replace (INR 3 * (1 / 3))%R with 1%R by (cbn; lra).
  apply Rpower_1. lra.
Qed.

Lemma cbrt_eps_magnitude v : (0.01 <= pow (Rabs v + 1e-6) (1 / 3))%R.
Proof.
  pose proof (Rabs_pos v) as Ha.
  rewrite pow_positive_base by lra.
  rewrite <- Rpower_eps_third. apply Rle_Rpower_l; lra.
Qed.

Lemma cbrt_eps_pos v : (0 < v)%R -> (0.01 <= cbrt_eps v)%R.
Proof.
  intros H. unfold cbrt_eps. rewrite (sign_pos H).
  pose proof (cbrt_eps_magnitude v). lra.
Qed.

Lemma cbrt_eps_neg v : (v < 0)%R -> (cbrt_eps v <= -0.01)%R.
Proof.
  intros H. unfold cbrt_eps. rewrite (sign_neg H).
  pose proof (cbrt_eps_magnitude v). lra.
Qed.

Lemma cbrt_eps_odd v : cbrt_eps (- v) = (- cbrt_eps v)%R.
Proof.
  unfold cbrt_eps. rewrite Rabs_Ropp.
  destruct (Rtotal_order v 0) as [H|[->|H]].
  - rewrite (sign_neg H), (@sign_pos (- v)) by lra. lra.
  - rewrite Ropp_0, sign_zero. lra.
  - rewrite (sign_pos H), (@sign_neg (- v)) by lra. lra.
Qed.

Lemma oklab_pixel_black : oklab_pixel 0 0 0 = (0, 0, 0)%R.
Proof.
  unfold oklab_pixel.
  replace (0.4122214708 * 0 + 0.5363325363 * 0 + 0.0514459929 * 0)%R with 0%R by lra.
  replace (0.2119034982 * 0 + 0.6806995451 * 0 + 0.1073969566 * 0)%R with 0%R by lra.
  replace (0.0883024619 * 0 + 0.2817188376 * 0 + 0.6299787005 * 0)%R with 0%R by lra.
  rewrite cbrt_eps_0.
  apply pair_equal_spec; split; [apply pair_equal_spec; split|]; lra.
Qed.


(** ** Channels beyond the third are never read *)

Lemma narrow_first3_shape x B C H W :
  shape x = [B; C; H; W] -> shape (narrow x 1 0 3) = [B; 3; H; W].
Proof. intros Hx. unfold narrow. cbn. now rewrite Hx. Qed.

Lemma index_channel_narrow x B C H W c :
  shape x = [B; C; H; W] -> 3 <= C -> c < 3 ->
  index_channel (narrow x 1 0 3) c = index_channel x c.
Proof.
  intros Hx HC Hc. unfold index_channel, select, dim.
  rewrite (narrow_first3_shape x Hx), Hx.
  change (length [B; 3; H; W] <? 4) with false.
  change (length [B; C; H; W] <? 4) with false.
  change (1 <? length [B; 3; H; W]) with true.
  change (1 <? length [B; C; H; W]) with true. cbn [nth].
  replace (c <? 3) with true by (symmetry; apply Nat.ltb_lt; lia).
  replace (c <? C) with true by (symmetry; apply Nat.ltb_lt; lia).
  f_equal. cbn [remove_at firstn skipn app]. apply tabulate_ext.
  intros idx Hr. apply in_range_3_inv in Hr as (b & i & j & -> & Hb & Hi & Hj).
  cbn [insert_at firstn skipn app]. unfold narrow.
  rewrite get_tabulate.
  - cbn. now rewrite Nat.add_0_r.
  - rewrite Hx. cbn. apply in_range_4; assumption.
Qed.

Lemma _rgb_to_oklab_narrow x B C H W :
  shape x = [B; C; H; W] -> 3 <= C ->
  GammaUnet._rgb_to_oklab (narrow x 1 0 3) = GammaUnet._rgb_to_oklab x.
Proof.
  intros Hx HC. unfold GammaUnet._rgb_to_oklab.
  now rewrite !(index_channel_narrow x Hx HC) by lia.
Qed.

(** ** The gamma curve is monotone and never darkens a value up to 1 *)

Lemma clamp_mono v v' : (v <= v')%R -> (Rmin (Rmax v 0) 1 <= Rmin (Rmax v' 0) 1)%R.
Proof.
  intros H. apply Rle_min_compat_r, Rle_max_compat_r, H.
Qed.

Lemma gamma_value_mono v v' g :
  (0 <= g)%R -> (v <= v')%R ->
  (pow (Rmin (Rmax v 0) 1 + 1e-8) g <= pow (Rmin (Rmax v' 0) 1 + 1e-8) g)%R.
Proof.
  intros Hg Hv. pose proof (clamp_range v). pose proof (clamp_range v').
  pose proof (clamp_mono Hv).
  rewrite !pow_positive_base by lra. apply Rle_Rpower_l; lra.
Qed.





Lemma gamma_correction_data x g :
  data (GammaUnet._gamma_correction x g)
  = map (fun v => pow (Rmin (Rmax v 0) 1 + 1e-8) g) (data x).
Proof.
  unfold GammaUnet._gamma_correction, GammaUnet.gamma_base, pow_scalar, add_scalar,
    clamp, tmap. cbn [data]. now rewrite !map_map.
Qed.

(** ** Attention: the layout of the heads *)

Lemma split_heads_get E heads m x B T b hh t d :
  wf_MHSA E heads m -> shape x = [B; T; E] ->
  b < B -> hh < heads -> t < T -> d < E / heads ->
  exists y, MultiHeadSelfAttention.split_heads m x B = OK y
            /\ shape y = [B; heads; T; E / heads]
            /\ get y [b; hh; t; d] = get x [b; t; hh * (E / heads) + d].
Proof.
  intros (HE & Hh & Hmod & _ & Hnh & Hhd & _) Hx Hb Hhh Ht Hd.
  unfold MultiHeadSelfAttention.split_heads. rewrite Hnh, Hhd.
  assert (Hdiv : E = heads * (E / heads)) by (apply Nat.Div0.div_exact; exact Hmod).
  remember (E / heads) as q.
  rewrite (@reshape_ok x _ [B; T; heads; q]).
  - cbn [bind]. unfold permute. cbn [shape length].
    change (is_perm [0; 2; 1; 3] 4) with true. cbv iota.
    eexists. split; [reflexivity|]. split; [reflexivity|].
    rewrite get_tabulate by (apply in_range_4; assumption).
    unfold get. rewrite Hx. cbn. f_equal. rewrite Hdiv. lia.
  - apply reshape_shape_infer_1of4; try lia.
    rewrite Hx. cbn [numel fold_right]. rewrite Hdiv. lia.
Qed.

(** ** The inputs [MultiHeadSelfAttention.forward] accepts *)

Lemma reshape_shape_infer_last_zero s a b :
  a * b = 0 -> reshape_shape s [Z.of_nat a; Z.of_nat b; (-1)%Z] = Err RuntimeError.
Proof.
  intros H0. reshape_norm.
  replace (a * (b * 1)) with 0 by lia. reflexivity.
Qed.

Lemma to_sequence_rank x :
  length (shape x) <> 4 -> MultiHeadSelfAttention.to_sequence x = Err ValueError.
Proof.
  intros H. unfold MultiHeadSelfAttention.to_sequence, size4.
  destruct (shape x) as [|a [|b [|c [|d [|e l]]]]]; cbn in *; try reflexivity. lia.
Qed.

Lemma to_sequence_empty x B F h w :
  shape x = [B; F; h; w] -> B * (h * w) = 0 ->
  MultiHeadSelfAttention.to_sequence x = Err RuntimeError.
Proof.
  intros Hx H0. unfold MultiHeadSelfAttention.to_sequence, size4, reshape.
  rewrite Hx. cbn [bind].
  now rewrite (reshape_shape_infer_last_zero _ _ _ H0).
Qed.

Lemma Linear_forward_mismatch n l x pre k :
  wf_Linear n l -> shape x = pre ++ [k] -> k <> n ->
  Linear_forward l x = Err RuntimeError.
Proof.
  intros [Hw Hb] Hx Hk. unfold Linear_forward, linear_shape. rewrite Hw, Hb, Hx.
  destruct (pre ++ [k]) eqn:E; [now destruct pre|]. rewrite <- E.
  rewrite last_last. apply Nat.eqb_neq in Hk. now rewrite Hk.
Qed.

Lemma MHSA_forward_inv E heads m x y :
  wf_MHSA E heads m -> MultiHeadSelfAttention.forward m x = OK y ->
  exists B h w, shape x = [B; E; h; w] /\ 0 < B /\ 0 < h /\ 0 < w.
Proof.
  intros Hwf H. unfold MultiHeadSelfAttention.forward in H.
  destruct (Nat.eq_dec (length (shape x)) 4) as [H4|H4];
    [|rewrite (to_sequence_rank x H4) in H; discriminate].
  destruct (shape x) as [|B [|F [|h [|w [|e l]]]]] eqn:Hx; try discriminate. clear H4.
  destruct (Nat.eq_dec (B * (h * w)) 0) as [H0|H0];
    [rewrite (to_sequence_empty x Hx H0) in H; discriminate|].
  assert (HB : 0 < B) by (destruct B; lia).
  assert (Hh : 0 < h) by (destruct h; lia).
  assert (Hw : 0 < w) by (destruct w; lia).
  rewrite (to_sequence_ok x Hx HB Hh Hw) in H. cbn [bind] in H.
  destruct (Nat.eq_dec F E) as [->|HF]; [eauto 8|].
  exfalso. apply bind_OK in H as (o & Ho & _).
  unfold MultiHeadSelfAttention.attend in Ho.
  pose proof Hwf as (_ & _ & _ & _ & _ & _ & Hq & _).
  rewrite (@Linear_forward_mismatch E _ (mkTensor [B; h * w; F] (data x)) [B; h * w] F Hq)
    in Ho; [discriminate | reflexivity | exact HF].
Qed.

(** ** The inputs [Denoiser.forward] accepts *)

Lemma conv2d_batched_inv cin cout stride c x y :
  wf_Conv2d cin cout 3 stride 1 c -> conv2d_batched c x = OK y ->
  exists B H W, shape x = [B; cin; H; W] /\ 0 < H /\ 0 < W.
Proof.
  intros (Hw & Hb & Hs & Hp) H. unfold conv2d_batched, conv2d_shape in H.
  rewrite Hw, Hb, Hs, Hp in H.
  destruct (shape x) as [|B [|C [|h [|w [|e l]]]]]; try discriminate.
  cbn [shape_eqb] in H. rewrite Nat.eqb_refl in H. cbn [andb] in H.
  destruct (Nat.eqb_spec C cin) as [->|]; [|discriminate]. cbn [negb] in H.
  destruct (Nat.ltb_spec (h + 2 * 1) 3); [discriminate|].
  destruct (Nat.ltb_spec (w + 2 * 1) 3); [discriminate|].
  exists B, h, w. repeat split; lia.
Qed.

(** A convolution returns on a batch, or on one unbatched image. *)
Lemma conv_inv cin cout stride c x y :
  wf_Conv2d cin cout 3 stride 1 c -> Conv2d_forward c x = OK y ->
  (exists B H W, shape x = [B; cin; H; W] /\ 0 < H /\ 0 < W)
  \/ (exists H W, shape x = [cin; H; W] /\ 0 < H /\ 0 < W).
Proof.
  intros Hc H.
  destruct (Nat.eq_dec (length (shape x)) 3) as [H3|H3].
  - right. unfold Conv2d_forward in H.
    destruct (shape x) as [|a [|b [|d [|e l]]]] eqn:Hx; try discriminate. clear H3.
    apply bind_OK in H as (z & Hz & _).
    destruct (@conv2d_batched_inv _ _ _ _ _ _ Hc Hz) as (B & h & w & Sx & Hh & Hw).
    cbn [shape] in Sx. injection Sx as _ -> -> ->. eauto.
  - left. rewrite Conv2d_forward_batched in H by exact H3.
    exact (@conv2d_batched_inv _ _ _ _ _ _ Hc H).
Qed.

Lemma skip_dim_size_ok n : size_ok n -> skip_dim n = OK (out_size n).
Proof.
  intros [->|[Hn H8]]; [reflexivity|].
  apply Nat.Div0.div_exact in H8.
  assert (0 < n / 8) by lia.
  unfold out_size. destruct (Nat.eqb_spec n 1); [lia|].
  rewrite H8 at 1. rewrite skip_dim_mult8 by assumption. now rewrite <- H8.
Qed.

Lemma skip_dim_inv n r : 0 < n -> skip_dim n = OK r -> size_ok n /\ r = out_size n.
Proof.
  intros Hn H.
  assert (Hok : size_ok n).
  { destruct (Nat.eq_dec n 1) as [->|H1]; [now left|].
    destruct (Nat.eq_dec (n mod 8) 0) as [H8|H8]; [right; now split|].
    rewrite (skip_dim_fail Hn H1 H8) in H. discriminate. }
  split; [exact Hok|]. rewrite (skip_dim_size_ok Hok) in H. now injection H as <-.
Qed.

Lemma out_size_pos n : 0 < n -> 0 < out_size n.
Proof. intros H. unfold out_size. destruct (n =? 1); lia. Qed.

Lemma size_ok_pos n : size_ok n -> 0 < n.
Proof. intros [->|[H _]]; lia. Qed.

Lemma Denoiser_forward_general F D x B H W :
  wf_Denoiser F D -> shape x = [B; 1; H; W] -> 0 < B -> size_ok H -> size_ok W ->
  exists out, Denoiser.forward D x = OK out
              /\ shape out = [B; 1; out_size H; out_size W].
Proof.
  intros HD Hx HB HH HW. apply shape_of_OK.
  rewrite (@Denoiser_forward_shape F D x B H W HD Hx HB (size_ok_pos HH) (size_ok_pos HW)).
  unfold Denoiser_shape. now rewrite (skip_dim_size_ok HH), (skip_dim_size_ok HW).
Qed.

Lemma MHSA_forward_empty m x B F h w :
  shape x = [B; F; h; w] -> B * (h * w) = 0 ->
  MultiHeadSelfAttention.forward m x = Err RuntimeError.
Proof.
  intros Hx H0. unfold MultiHeadSelfAttention.forward.
  now rewrite (to_sequence_empty x Hx H0).
Qed.

Lemma Denoiser_forward_empty_batch F D x H W :
  wf_Denoiser F D -> shape x = [0; 1; H; W] -> 0 < H -> 0 < W ->
  Denoiser.forward D x = Err RuntimeError.
Proof.
  intros (Hc1 & Hc2 & Hc3 & Hc4 & _) Hx HH HW. unfold Denoiser.forward.
  pose proof (down_pos H) as P2. pose proof (down_pos W) as Q2.
  pose proof (down_pos (down H)) as P3. pose proof (down_pos (down W)) as Q3.
  step (@conv_same_ok _ _ _ x 0 H W Hc1 Hx HH HW).
  set (x1 := tmap _ y).
  assert (S1 : shape x1 = [0; F; H; W]) by exact Sy.
  step (@conv_down_ok _ _ _ x1 0 H W Hc2 S1 HH HW).
  set (x2 := tmap _ y0).
  assert (S2 : shape x2 = [0; F; down H; down W]) by exact Sy0.
  step (@conv_down_ok _ _ _ x2 0 _ _ Hc3 S2 P2 Q2).
  set (x3 := tmap _ y1).
  assert (S3 : shape x3 = [0; F; down (down H); down (down W)]) by exact Sy1.
  step (@conv_down_ok _ _ _ x3 0 _ _ Hc4 S3 P3 Q3).
  set (x4 := tmap _ y2).
  assert (S4 : shape x4 = [0; F; down (down (down H)); down (down (down W))])
    by exact Sy2.
  now rewrite (@MHSA_forward_empty _ x4 _ _ _ _ S4 eq_refl).
Qed.

(** On one unbatched channel the four convolutions return three-axis maps
    and the attention block's four-way unpack of [x.size()] raises. *)
Lemma Denoiser_forward_unbatched F D x H W :
  wf_Denoiser F D -> shape x = [1; H; W] -> 0 < H -> 0 < W ->
  Denoiser.forward D x = Err ValueError.
Proof.
  intros (Hc1 & Hc2 & Hc3 & Hc4 & _) Hx HH HW. unfold Denoiser.forward.
  pose proof (down_pos H) as P2. pose proof (down_pos W) as Q2.
  pose proof (down_pos (down H)) as P3. pose proof (down_pos (down W)) as Q3.
  step (@Conv2d_forward_unbatched_ok _ _ _ _ _ _ x H W Hc1 Hx ltac:(lia) ltac:(lia)).
  set (x1 := tmap _ y).
  assert (S1 : shape x1 = [F; H; W])
    by (subst x1; cbn [shape tmap]; rewrite Sy, !conv_out_same by assumption; reflexivity).
  step (@Conv2d_forward_unbatched_ok _ _ _ _ _ _ x1 H W Hc2 S1 ltac:(lia) ltac:(lia)).
  set (x2 := tmap _ y0).
  assert (S2 : shape x2 = [F; down H; down W]) by exact Sy0.
  step (@Conv2d_forward_unbatched_ok _ _ _ _ _ _ x2 _ _ Hc3 S2 ltac:(lia) ltac:(lia)).
  set (x3 := tmap _ y1).
  assert (S3 : shape x3 = [F; down (down H); down (down W)]) by exact Sy1.
  step (@Conv2d_forward_unbatched_ok _ _ _ _ _ _ x3 _ _ Hc4 S3 ltac:(lia) ltac:(lia)).
  set (x4 := tmap _ y2).
  assert (S4 : length (shape x4) <> 4)
    by (subst x4; cbn [shape tmap]; rewrite Sy2; discriminate).
  unfold MultiHeadSelfAttention.forward.
  now rewrite (to_sequence_rank x4 S4).
Qed.

Lemma Denoiser_forward_inv F D x out :
  wf_Denoiser F D -> Denoiser.forward D x = OK out ->
  exists B H W, shape x = [B; 1; H; W] /\ 0 < B /\ size_ok H /\ size_ok W
                /\ shape out = [B; 1; out_size H; out_size W].
Proof.
  intros HD H. pose proof H as H'. unfold Denoiser.forward in H'.
  apply bind_OK in H' as (c1 & Hc1 & _).
  pose proof HD as (W1 & _).
  destruct (@conv_inv _ _ _ _ _ _ W1 Hc1)
    as [(B & h & w & Hx & Hh & Hw)|(h & w & Hx & Hh & Hw)];
    [|rewrite (Denoiser_forward_unbatched x HD Hx Hh Hw) in H; discriminate].
  destruct B as [|B'].
  { rewrite (Denoiser_forward_empty_batch x HD Hx Hh Hw) in H. discriminate. }
  pose proof (@Denoiser_forward_shape F D x (S B') h w HD Hx ltac:(lia) Hh Hw) as Hs.
  rewrite H in Hs. cbn in Hs. unfold Denoiser_shape in Hs.
  destruct (skip_dim h) as [rh|] eqn:Eh; [|discriminate].
  destruct (skip_dim w) as [rw|] eqn:Ew; [|discriminate].
  injection Hs as Hs.
  destruct (skip_dim_inv Hh Eh) as [Oh ->]. destruct (skip_dim_inv Hw Ew) as [Ow ->].
  exists (S B'), h, w. repeat split; try assumption. lia.
Qed.


(** ** The inputs [GammaUnet.forward] accepts *)

Lemma GammaUnet_forward_general F P x B C H W :
  wf_GammaUnet F P -> shape x = [B; C; H; W] ->
  3 <= C -> 0 < B -> size_ok H -> size_ok W ->
  exists out, GammaUnet.forward P x = OK out
              /\ shape out = [B; 3; out_size H; out_size W].
Proof.
  intros (Hy & Hcb & Hcr & Hfc & Hg) Hx HC HB HH HW.
  unfold GammaUnet.forward.
  destruct (@branches_ok P x B C _ _ Hx HC) as (ok & _ & Sok & Ebr).
  rewrite Ebr. cbn [bind].
  step (@Denoiser_forward_general F _
          (GammaUnet._gamma_correction (narrow ok 1 0 1) (GammaUnet.gamma P))
          B H W Hy (narrow_channel_shape ok 0 Sok) HB HH HW).
  step (@Denoiser_forward_general F _
          (GammaUnet._gamma_correction (narrow ok 1 1 1) (GammaUnet.gamma P))
          B H W Hcb (narrow_channel_shape ok 1 Sok) HB HH HW).
  step (@Denoiser_forward_general F _ (narrow ok 1 2 1)
          B H W Hcr (narrow_channel_shape ok 2 Sok) HB HH HW).
  step (@cat3_ok y y0 y1 B _ _ Sy Sy0 Sy1).
  pose proof (out_size_pos (size_ok_pos HH)). pose proof (out_size_pos (size_ok_pos HW)).
  step (@conv_same_ok _ _ _ y2 B _ _ Hfc Sy2 ltac:(assumption) ltac:(assumption)).
  eexists. split; [reflexivity|]. exact Sy3.
Qed.

Lemma GammaUnet_forward_inv F P x out B C H W :
  wf_GammaUnet F P -> shape x = [B; C; H; W] -> GammaUnet.forward P x = OK out ->
  3 <= C /\ 0 < B /\ size_ok H /\ size_ok W.
Proof.
  intros (Hy & _) Hx Hf.
  destruct (le_lt_dec 3 C) as [HC|HC].
  - split; [exact HC|].
    unfold GammaUnet.forward in Hf.
    destruct (@branches_ok P x B C _ _ Hx HC) as (ok & _ & Sok & Ebr).
    rewrite Ebr in Hf. cbn [bind] in Hf.
    apply bind_OK in Hf as (yd & Hyd & _).
    destruct (Denoiser_forward_inv _ Hy Hyd) as (B' & H' & W' & Sy & HB & HH & HW & _).
    change (shape (narrow ok 1 0 1) = [B'; 1; H'; W']) in Sy.
    rewrite (narrow_channel_shape ok 0 Sok) in Sy.
    injection Sy as -> -> ->. auto.
  - exfalso. unfold GammaUnet.forward, GammaUnet.branches in Hf.
    rewrite (@_rgb_to_oklab_fail x B C H W Hx HC) in Hf. discriminate.
Qed.

(** ** Construction of the whole model *)

Lemma nn_Conv2d_ok cin cout k stride padding w :
  (0 <= cin)%Z -> (0 <= cout)%Z -> (0 <= k)%Z ->
  nn_Conv2d cin cout k stride padding w
  = OK (mkConv2d
          (tabulate [Z.to_nat cout; Z.to_nat cin; Z.to_nat k; Z.to_nat k] w)
          (tabulate [Z.to_nat cout] (fun _ => 0%R)) stride padding).
Proof.
  intros H1 H2 H3. unfold nn_Conv2d.
  replace (cin <? 0)%Z with false by (symmetry; apply Z.ltb_ge; lia).
  replace (cout <? 0)%Z with false by (symmetry; apply Z.ltb_ge; lia).
  replace (k <? 0)%Z with false by (symmetry; apply Z.ltb_ge; lia).
  reflexivity.
Qed.

Lemma dense_ok n w :
  (0 < n)%Z ->
  MultiHeadSelfAttention.dense n w
  = OK (mkLinear (tabulate [Z.to_nat n; Z.to_nat n] w)
                 (tabulate [Z.to_nat n] (fun _ => 0%R))).
Proof.
  intros H. unfold MultiHeadSelfAttention.dense.
  replace (n <? 0)%Z with false by (symmetry; apply Z.ltb_ge; lia).
  replace (n =? 0)%Z with false by (symmetry; apply Z.eqb_neq; lia).
  reflexivity.
Qed.

Lemma all_zero_tabulate s : all_zero (tabulate s (fun _ => 0%R)).
Proof.
  unfold all_zero, tabulate. cbn [data].
  apply Forall_map, Forall_forall. reflexivity.
Qed.

Lemma Denoiser_init_ok F act d :
  (0 < F)%Z -> (F mod 4 = 0)%Z ->
  exists D, Denoiser.__init__ F 3 act d = OK D
            /\ wf_Denoiser (Z.to_nat F) D
            /\ Forall all_zero (Denoiser_biases D)
            /\ Denoiser.activation D = act.
Proof.
  intros HF H4.
  assert (E : exists D, Denoiser.__init__ F 3 act d = OK D
                        /\ Forall all_zero (Denoiser_biases D)
                        /\ Denoiser.activation D = act).
  { unfold Denoiser.__init__, MultiHeadSelfAttention.__init__.
    rewrite !nn_Conv2d_ok by lia. cbn [bind].
    change (4 =? 0)%Z with false. cbv iota.
    replace (F mod 4 =? 0)%Z with true by (symmetry; apply Z.eqb_eq; exact H4).
    cbn [negb]. rewrite !dense_ok by exact HF. cbn [bind].
    eexists. split; [reflexivity|]. split; [|reflexivity].
    unfold Denoiser_biases. cbn.
    repeat (constructor; [apply all_zero_tabulate|]). constructor. }
  destruct E as (D & ED & HZ & HA). exists D.
  split; [exact ED|]. split; [|split; assumption].
  apply (@Denoiser_init_wf (Z.to_nat F) act d). rewrite Z2Nat.id by lia. exact ED.
Qed.

Lemma Denoiser_init_not_divisible F act d :
  (0 <= F)%Z -> (F mod 4 <> 0)%Z ->
  Denoiser.__init__ F 3 act d = Err AssertionError.
Proof.
  intros HF H4. unfold Denoiser.__init__.
  rewrite !nn_Conv2d_ok by lia. cbn [bind].
  now rewrite MHSA_init_not_divisible by (assumption || lia).
Qed.

Lemma GammaUnet_init_ok F d :
  (0 < F)%Z -> (F mod 4 = 0)%Z ->
  exists P, GammaUnet.__init__ F d = OK P
            /\ wf_GammaUnet (Z.to_nat F) P
            /\ Forall all_zero (GammaUnet_biases P).
Proof.
  intros HF H4. unfold GammaUnet.__init__.
  destruct (@Denoiser_init_ok F relu (GammaUnet.draw_y d) HF H4) as (Dy & Ey & Wy & Zy & _).
  destruct (@Denoiser_init_ok F relu (GammaUnet.draw_cb d) HF H4) as (Dcb & Ecb & Wcb & Zcb & _).
  destruct (@Denoiser_init_ok F relu (GammaUnet.draw_cr d) HF H4) as (Dcr & Ecr & Wcr & Zcr & _).
  rewrite Ey, Ecb, Ecr. cbn [bind].
  rewrite nn_Conv2d_ok by lia. cbn [bind].
  eexists. split; [reflexivity|]. split.
  - unfold wf_GammaUnet.
    cbn [GammaUnet.denoiser_y GammaUnet.denoiser_cb GammaUnet.denoiser_cr
         GammaUnet.final_conv GammaUnet.gamma].
    repeat (split; [assumption|]). split; [|reflexivity].
    unfold wf_Conv2d. cbn. repeat split.
  - unfold GammaUnet_biases.
    cbn [GammaUnet.denoiser_y GammaUnet.denoiser_cb GammaUnet.denoiser_cr
         GammaUnet.final_conv].
    repeat (apply Forall_app; split; [assumption|]).
    constructor; [apply all_zero_tabulate | constructor].
Qed.

Lemma GammaUnet_init_not_divisible F d :
  (0 <= F)%Z -> (F mod 4 <> 0)%Z -> GammaUnet.__init__ F d = Err AssertionError.
Proof.
  intros HF H4. unfold GammaUnet.__init__.
  now rewrite Denoiser_init_not_divisible by assumption.
Qed.

(** * Properties beyond the claims *)

Ltac wf_tiny :=
  unfold wf_MHSA, wf_Linear; repeat split; try reflexivity; try lia.

(** X1.  The first step of [MultiHeadSelfAttention.forward] is a plain
    reshape: on a non-empty [(B, F, h, w)] map it returns a [(B, h*w, F)]
    sequence with the very same element list, so the element of channel
    [c] at row [i], column [j] lands at token [k / F], feature [k mod F],
    where [k = c*h*w + i*w + j] is its offset in channel-major order. *)
Theorem to_sequence_is_plain_reshape x B F h w :
  shape x = [B; F; h; w] -> 0 < B -> 0 < F -> 0 < h -> 0 < w ->
  exists xs,
    MultiHeadSelfAttention.to_sequence x = OK (xs, (B, h, w))
    /\ shape xs = [B; h * w; F]
    /\ data xs = data x
    /\ forall b c i j,
         get x [b; c; i; j]
         = get xs [b; (c * (h * w) + i * w + j) / F; (c * (h * w) + i * w + j) mod F].
Proof.
  intros Hx HB HF Hh Hw.
  exists (mkTensor [B; h * w; F] (data x)).
  split; [now apply to_sequence_ok|]. split; [reflexivity|]. split; [reflexivity|].
  intros b c i j. exact (@to_sequence_layout x B F h w b c i j Hx HF).
Qed.

Lemma to_sequence_is_plain_reshape_witness :
  exists xs,
    MultiHeadSelfAttention.to_sequence two_channel_map = OK (xs, (1, 1, 2))
    /\ shape xs = [1; 1 * 2; 2]
    /\ data xs = data two_channel_map
    /\ forall b c i j,
         get two_channel_map [b; c; i; j]
         = get xs [b; (c * (1 * 2) + i * 2 + j) / 2; (c * (1 * 2) + i * 2 + j) mod 2].
Proof.
  apply (@to_sequence_is_plain_reshape two_channel_map 1 2 1 2);
    [reflexivity | lia | lia | lia | lia].
Defined.

(** X2.  The last step of [MultiHeadSelfAttention.forward] puts feature
    [f] of token [i*w + j] at channel [f], row [i], column [j] of a
    [(B, E, h, w)] map. *)
Theorem from_sequence_restores_positions E heads m o B h w b f i j :
  wf_MHSA E heads m -> shape o = [B; h * w; E] ->
  b < B -> f < E -> i < h -> j < w ->
  exists y, MultiHeadSelfAttention.from_sequence m o B h w = OK y
            /\ shape y = [B; E; h; w]
            /\ get y [b; f; i; j] = get o [b; i * w + j; f].
Proof. apply from_sequence_get. Qed.

Lemma from_sequence_restores_positions_witness :
  exists y, MultiHeadSelfAttention.from_sequence tiny_attention two_token_sequence 1 1 2
            = OK y
            /\ shape y = [1; 2; 1; 2]
            /\ get y [0; 1; 0; 1] = get two_token_sequence [0; 0 * 2 + 1; 1].
Proof.
  apply (@from_sequence_restores_positions 2 2 tiny_attention two_token_sequence
           1 1 2 0 1 0 1); [wf_tiny | reflexivity | lia | lia | lia | lia].
Defined.

(** X3.  [split_heads] gives head [k] the features
    [k*head_dim .. (k+1)*head_dim - 1] of every token: on a [(B, T, E)]
    input the result has shape [(B, heads, T, E/heads)] and element
    [(b, k, t, d)] is element [(b, t, k*head_dim + d)] of the input. *)
Theorem split_heads_layout E heads m x B T b k t d :
  wf_MHSA E heads m -> shape x = [B; T; E] ->
  b < B -> k < heads -> t < T -> d < E / heads ->
  exists y, MultiHeadSelfAttention.split_heads m x B = OK y
            /\ shape y = [B; heads; T; E / heads]
            /\ get y [b; k; t; d] = get x [b; t; k * (E / heads) + d].
Proof. apply split_heads_get. Qed.

Lemma split_heads_layout_witness :
  exists y, MultiHeadSelfAttention.split_heads tiny_attention two_token_sequence 1 = OK y
            /\ shape y = [1; 2; 2; 2 / 2]
            /\ get y [0; 1; 0; 0] = get two_token_sequence [0; 0; 1 * (2 / 2) + 0].
Proof.
  apply (@split_heads_layout 2 2 tiny_attention two_token_sequence 1 2 0 1 0 0);
    [wf_tiny | reflexivity | lia | lia | lia | cbn; lia].
Defined.

(** X5.  [MultiHeadSelfAttention.forward] returns exactly on the inputs of
    shape [(B, embed_size, h, w)] with [B], [h], [w] positive (any other
    rank, channel count, or an empty axis raises), and what it returns has
    the input's shape. *)
Theorem attention_forward_domain E heads m x :
  wf_MHSA E heads m ->
  ((exists y, MultiHeadSelfAttention.forward m x = OK y)
   <-> exists B h w, shape x = [B; E; h; w] /\ 0 < B /\ 0 < h /\ 0 < w)
  /\ forall y, MultiHeadSelfAttention.forward m x = OK y -> shape y = shape x.
Proof.
  intros Hwf. split; [split|].
  - intros (y & Hy). exact (MHSA_forward_inv x Hwf Hy).
  - intros (B & h & w & Hx & HB & Hh & Hw).
    destruct (@MHSA_forward_ok E heads m x B h w Hwf Hx HB Hh Hw) as (y & Ey & _). eauto.
  - intros y Hy.
    destruct (MHSA_forward_inv x Hwf Hy) as (B & h & w & Hx & HB & Hh & Hw).
    destruct (@MHSA_forward_ok E heads m x B h w Hwf Hx HB Hh Hw) as (y' & Ey & Sy).
    rewrite Hy in Ey. injection Ey as <-. congruence.
Qed.

Lemma attention_forward_domain_witness :
  ((exists y, MultiHeadSelfAttention.forward tiny_attention two_channel_map = OK y)
   <-> exists B h w, shape two_channel_map = [B; 2; h; w] /\ 0 < B /\ 0 < h /\ 0 < w)
  /\ forall y, MultiHeadSelfAttention.forward tiny_attention two_channel_map = OK y ->
               shape y = shape two_channel_map.
Proof.
  apply (@attention_forward_domain 2 2 tiny_attention two_channel_map). wf_tiny.
Defined.

(** X6.  [Denoiser.forward] (default kernel size) returns exactly on the
    inputs of shape [(B, 1, H, W)] with a non-empty batch and each of [H],
    [W] equal to 1 or a positive multiple of 8.  The output has one channel
    and the input's spatial size, except that a size-1 axis comes out with
    size 8. *)
Theorem denoiser_forward_domain F D x :
  wf_Denoiser F D ->
  ((exists out, Denoiser.forward D x = OK out)
   <-> exists B H W, shape x = [B; 1; H; W] /\ 0 < B /\ size_ok H /\ size_ok W)
  /\ forall B H W out,
       shape x = [B; 1; H; W] -> Denoiser.forward D x = OK out ->
       shape out = [B; 1; out_size H; out_size W].
Proof.
  intros HD. split; [split|].
  - intros (out & Hout).
    destruct (Denoiser_forward_inv x HD Hout) as (B & H & W & Hx & HB & HH & HW & _).
    eauto 8.
  - intros (B & H & W & Hx & HB & HH & HW).
    destruct (@Denoiser_forward_general F D x B H W HD Hx HB HH HW) as (out & E & _).
    eauto.
  - intros B H W out Hx Hout.
    destruct (Denoiser_forward_inv x HD Hout) as (B' & H' & W' & Hx' & _ & _ & _ & S).
    rewrite Hx in Hx'. injection Hx' as <- <- <-. exact S.
Qed.

Lemma denoiser_forward_domain_witness :
  ((exists out, Denoiser.forward example_denoiser channel_64x64 = OK out)
   <-> exists B H W, shape channel_64x64 = [B; 1; H; W] /\ 0 < B
                     /\ size_ok H /\ size_ok W)
  /\ forall B H W out,
       shape channel_64x64 = [B; 1; H; W] ->
       Denoiser.forward example_denoiser channel_64x64 = OK out ->
       shape out = [B; 1; out_size H; out_size W].
Proof.
  apply (@denoiser_forward_domain 32 example_denoiser channel_64x64). wf_example.
Defined.

(** X7.  On a four-axis input [(B, C, H, W)], [GammaUnet.forward] returns
    exactly when [C >= 3], the batch is non-empty and each of [H], [W] is 1
    or a positive multiple of 8; the output then has three channels and the
    input's spatial size, a size-1 axis coming out with size 8. *)
Theorem gammaunet_forward_domain F P x B C H W :
  wf_GammaUnet F P -> shape x = [B; C; H; W] ->
  ((exists out, GammaUnet.forward P x = OK out)
   <-> 3 <= C /\ 0 < B /\ size_ok H /\ size_ok W)
  /\ forall out, GammaUnet.forward P x = OK out ->
                 shape out = [B; 3; out_size H; out_size W].
Proof.
  intros HP Hx. split; [split|].
  - intros (out & Hout). exact (GammaUnet_forward_inv x HP Hx Hout).
  - intros (HC & HB & HH & HW).
    destruct (@GammaUnet_forward_general F P x B C H W HP Hx HC HB HH HW) as (out & E & _).
    eauto.
  - intros out Hout.
    destruct (GammaUnet_forward_inv x HP Hx Hout) as (HC & HB & HH & HW).
    destruct (@GammaUnet_forward_general F P x B C H W HP Hx HC HB HH HW) as (o & E & S).
    rewrite Hout in E. injection E as <-. exact S.
Qed.

Lemma gammaunet_forward_domain_witness :
  ((exists out, GammaUnet.forward example_model grey_image_64 = OK out)
   <-> 3 <= 3 /\ 0 < 1 /\ size_ok 64 /\ size_ok 64)
  /\ forall out, GammaUnet.forward example_model grey_image_64 = OK out ->
                 shape out = [1; 3; out_size 64; out_size 64].
Proof.
  apply (@gammaunet_forward_domain 32 example_model grey_image_64 1 3 64 64);
    [wf_example | reflexivity].
Defined.

(** X8.  [_rgb_to_oklab] works pixel by pixel: on a four-axis input with at
    least three channels it returns a three-channel tensor of the same
    batch and spatial size, and the three output values at a position are
    the Oklab arithmetic ([oklab_pixel]) of the first three input channels
    at that position. *)
Theorem oklab_pixelwise x B C H W :
  shape x = [B; C; H; W] -> 3 <= C ->
  exists ok, GammaUnet._rgb_to_oklab x = OK ok
             /\ shape ok = [B; 3; H; W]
             /\ forall n i j, n < B -> i < H -> j < W ->
                  (get ok [n; 0; i; j], get ok [n; 1; i; j], get ok [n; 2; i; j])
                  = oklab_pixel (get x [n; 0; i; j]) (get x [n; 1; i; j])
                                (get x [n; 2; i; j]).
Proof.
  intros Hx HC.
  destruct (_rgb_to_oklab_pixels x Hx HC) as (ok & E & S & _ & G). eauto.
Qed.

Lemma oklab_pixelwise_witness :
  exists ok, GammaUnet._rgb_to_oklab grey_image_64 = OK ok
             /\ shape ok = [1; 3; 64; 64]
             /\ forall n i j, n < 1 -> i < 64 -> j < 64 ->
                  (get ok [n; 0; i; j], get ok [n; 1; i; j], get ok [n; 2; i; j])
                  = oklab_pixel (get grey_image_64 [n; 0; i; j])
                                (get grey_image_64 [n; 1; i; j])
                                (get grey_image_64 [n; 2; i; j]).
Proof.
  apply (@oklab_pixelwise grey_image_64 1 3 64 64); [reflexivity | lia].
Defined.

(** X9.  A black pixel converts to exactly (0, 0, 0): [sign(0) = 0]
    cancels the [eps] inside the cube root. *)
Theorem oklab_black_pixel x B C H W n i j :
  shape x = [B; C; H; W] -> 3 <= C -> n < B -> i < H -> j < W ->
  get x [n; 0; i; j] = 0%R -> get x [n; 1; i; j] = 0%R -> get x [n; 2; i; j] = 0%R ->
  exists ok, GammaUnet._rgb_to_oklab x = OK ok
             /\ get ok [n; 0; i; j] = 0%R
             /\ get ok [n; 1; i; j] = 0%R
             /\ get ok [n; 2; i; j] = 0%R.
Proof.
  intros Hx HC Hn Hi Hj H0 H1 H2.
  destruct (_rgb_to_oklab_pixels x Hx HC) as (ok & E & _ & _ & G).
  exists ok. split; [exact E|].
  specialize (G n i j Hn Hi Hj). rewrite H0, H1, H2, oklab_pixel_black in G.
  injection G as -> -> ->. auto.
Qed.

Lemma oklab_black_pixel_witness :
  exists ok, GammaUnet._rgb_to_oklab black_image = OK ok
             /\ get ok [0; 0; 0; 0] = 0%R
             /\ get ok [0; 1; 0; 0] = 0%R
             /\ get ok [0; 2; 0; 0] = 0%R.
Proof.
  apply (@oklab_black_pixel black_image 1 3 8 8 0 0 0);
    [reflexivity | lia | lia | lia | lia | reflexivity | reflexivity | reflexivity].
Defined.

(** X10.  The cube-root step [sign(v) * (|v| + 1e-6) ** (1/3)] keeps the
    sign and jumps at zero: a zero element gives 0, a positive element
    gives at least 0.01 and a negative element at most -0.01. *)
Theorem cube_root_sign_preserving v :
  wf_tensor v ->
  exists y, GammaUnet.cube_root v = OK y
            /\ shape y = shape v
            /\ forall idx, in_range (shape v) idx ->
                 (get v idx = 0 -> get y idx = 0)%R
                 /\ (0 < get v idx -> 0.01 <= get y idx)%R
                 /\ (get v idx < 0 -> get y idx <= -0.01)%R.
Proof.
  intros Hw.
  assert (Pv : pointwise (shape v) v (fun idx => get v idx))
    by (repeat split; assumption).
  destruct (pointwise_cube_root Pv) as (y & E & S & _ & G).
  exists y. split; [exact E|]. split; [exact S|].
  intros idx Hr. rewrite (G idx Hr). repeat split.
  - intros ->. apply cbrt_eps_0.
  - apply cbrt_eps_pos.
  - apply cbrt_eps_neg.
Qed.

Lemma cube_root_sign_preserving_witness :
  exists y, GammaUnet.cube_root two_channel_map = OK y
            /\ shape y = shape two_channel_map
            /\ forall idx, in_range (shape two_channel_map) idx ->
                 (get two_channel_map idx = 0 -> get y idx = 0)%R
                 /\ (0 < get two_channel_map idx -> 0.01 <= get y idx)%R
                 /\ (get two_channel_map idx < 0 -> get y idx <= -0.01)%R.
Proof.
  apply (@cube_root_sign_preserving two_channel_map). reflexivity.
Defined.

(** X11.  Channels beyond the third are never read: on a four-axis input
    with at least three channels, the conversion and the whole forward pass
    give the same result as on the input cut down to its first three
    channels. *)
Theorem extra_channels_ignored P x B C H W :
  shape x = [B; C; H; W] -> 3 <= C ->
  GammaUnet._rgb_to_oklab (narrow x 1 0 3) = GammaUnet._rgb_to_oklab x
  /\ GammaUnet.forward P (narrow x 1 0 3) = GammaUnet.forward P x.
Proof.
  intros Hx HC.
  pose proof (_rgb_to_oklab_narrow x Hx HC) as E. split; [exact E|].
  unfold GammaUnet.forward, GammaUnet.branches. now rewrite E.
Qed.

Lemma extra_channels_ignored_witness :
  GammaUnet._rgb_to_oklab (narrow four_channel_image 1 0 3)
  = GammaUnet._rgb_to_oklab four_channel_image
  /\ GammaUnet.forward example_model (narrow four_channel_image 1 0 3)
     = GammaUnet.forward example_model four_channel_image.
Proof.
  apply (@extra_channels_ignored example_model four_channel_image 1 4 8 8);
    [reflexivity | lia].
Defined.

(** X12.  Gamma correction is monotone for a non-negative exponent: if
    every element of [x] is at most the corresponding element of [y], the
    same holds after correction. *)
Theorem gamma_correction_monotone x y g :
  (0 <= g)%R -> Forall2 Rle (data x) (data y) ->
  Forall2 Rle (data (GammaUnet._gamma_correction x g))
              (data (GammaUnet._gamma_correction y g)).
Proof.
  intros Hg H. rewrite !gamma_correction_data.
  induction H as [|a b la lb Hab _ IH]; cbn; constructor; [|exact IH].
  now apply gamma_value_mono.
Qed.

Lemma gamma_correction_monotone_witness :
  Forall2 Rle (data (GammaUnet._gamma_correction channel_1x1 0.4))
              (data (GammaUnet._gamma_correction bright_1x1 0.4)).
Proof.
  apply (@gamma_correction_monotone channel_1x1 bright_1x1 0.4); [lra|].
  cbn. repeat constructor. lra.
Defined.





(** X15.  [GammaUnet.__init__]: for every positive [num_filters] divisible
    by 4 (the head count of the bottlenecks) and whatever the random draws,
    construction succeeds, the parameters have the shapes the layers
    declare, gamma is 0.4 and every bias is zero; a non-negative
    [num_filters] not divisible by 4 fails with the attention block's
    [AssertionError]. *)
Theorem gammaunet_construction (num_filters : Z) (d : GammaUnet.draws) :
  ((0 < num_filters)%Z -> (num_filters mod 4 = 0)%Z ->
     exists P, GammaUnet.__init__ num_filters d = OK P
               /\ wf_GammaUnet (Z.to_nat num_filters) P
               /\ GammaUnet.gamma P = 0.4%R
               /\ Forall all_zero (GammaUnet_biases P))
  /\ ((0 <= num_filters)%Z -> (num_filters mod 4 <> 0)%Z ->
        GammaUnet.__init__ num_filters d = Err AssertionError).
Proof.
  split.
  - intros HF H4. destruct (GammaUnet_init_ok d HF H4) as (P & E & Hwf & Hz).
    exists P. split; [exact E|]. split; [exact Hwf|]. split; [apply Hwf | exact Hz].
  - apply GammaUnet_init_not_divisible.
Qed.

(** X16.  A freshly constructed model evaluates: for every positive
    [num_filters] divisible by 4, whatever the draws, the model built by
    [GammaUnet.__init__] returns on every non-empty batch of three-channel
    images whose height and width are positive multiples of 8, with an
    output of the input's shape. *)
Theorem fresh_model_evaluates (num_filters : Z) (d : GammaUnet.draws) x B H W :
  (0 < num_filters)%Z -> (num_filters mod 4 = 0)%Z ->
  shape x = [B; 3; H; W] -> 0 < B -> 0 < H -> 0 < W -> H mod 8 = 0 -> W mod 8 = 0 ->
  exists P out, GammaUnet.__init__ num_filters d = OK P
                /\ GammaUnet.forward P x = OK out
                /\ shape out = shape x.
Proof.
  intros HF H4 Hx HB HH HW H8 W8.
  destruct (GammaUnet_init_ok d HF H4) as (P & E & Hwf & _).
  assert (OH : size_ok H) by (right; now split).
  assert (OW : size_ok W) by (right; now split).
  destruct (@GammaUnet_forward_general _ P x B 3 H W Hwf Hx ltac:(lia) HB OH OW)
    as (out & Eo & So).
  exists P, out. split; [exact E|]. split; [exact Eo|].
  rewrite So, Hx. unfold out_size.
  destruct (Nat.eqb_spec H 1) as [->|_]; [discriminate|].
  destruct (Nat.eqb_spec W 1) as [->|_]; [discriminate|]. reflexivity.
Qed.

Lemma fresh_model_evaluates_witness :
  exists P out, GammaUnet.__init__ 32 model_draws = OK P
                /\ GammaUnet.forward P grey_image_64 = OK out
                /\ shape out = shape grey_image_64.
Proof.
  apply (@fresh_model_evaluates 32 model_draws grey_image_64 1 64 64);
    [lia | reflexivity | reflexivity | lia | lia | lia | reflexivity | reflexivity].
Defined.

(** X17.  [Denoiser.forward] on one unbatched channel [(1, H, W)] with
    positive [H], [W]: the convolutions accept the three-axis input, and
    the attention block then raises a [ValueError] when it unpacks
    [x.size()] into four names. *)
Theorem denoiser_unbatched_fails F D x H W :
  wf_Denoiser F D -> shape x = [1; H; W] -> 0 < H -> 0 < W ->
  Denoiser.forward D x = Err ValueError.
Proof. intros HD Hx HH HW. exact (Denoiser_forward_unbatched x HD Hx HH HW). Qed.

Lemma denoiser_unbatched_fails_witness :
  Denoiser.forward example_denoiser unbatched_channel = Err ValueError.
Proof.
  apply (@denoiser_unbatched_fails 32 example_denoiser unbatched_channel 8 8);
    [wf_example | reflexivity | lia | lia].
Defined.
